(** * The news-sentiment micro-batch pipeline of [scripts/spark_news_consumer.py]

    A shallow embedding of [process_batch] and [save_to_cassandra]:

    - a Spark [DataFrame] is the list of its rows, in the order [collect()]
      returns them; every column of the Kafka schema is nullable, so a cell
      is an [option]; the frame handed to [save_to_cassandra] comes as the
      outcome of its [collect()] job, rows or failure;
    - a [TimestampType] cell counts microseconds, a CQL [timestamp]
      milliseconds: the driver cuts the instant to the millisecond;
    - a [DoubleType] cell is an IEEE-754 binary64 number, Rocq's primitive
      [float]; column arithmetic is Spark SQL's (a null operand gives null,
      a division by zero gives null, comparisons order NaN above every other
      number);
    - an aggregate folds the rows of a group in that order, as Spark does
      within a partition, and [orderBy] is a stable sort;
    - the VADER analyzer is a black box [analyze_sentiment], a parameter of
      everything that scores text;
    - [print], [show] and the Cassandra session are effects on an explicit
      [World]; a Python exception (an instance of [Exception]) is the
      [Raised] outcome of a computation, and the failure of a Spark job is
      given by an oracle [job_failure]. *)

From Stdlib Require Import ZArith List String Bool Floats Uint63 Lia.
From Stdlib Require Import DecimalString Permutation Sorted.
From stdpp Require Import base option gmap strings.
Import ListNotations.

#[local] Set Warnings "-inexact-float".
#[local] Open Scope string_scope.

(** ** Data model *)

(** Timestamps are instants, counted in microseconds since the epoch. *)
Abbreviation timestamp := Z.
Abbreviation double := float.

(** One row of [parsed_df]: the [schema] of [start_streaming]. *)
Record Article := mkArticle {
  title : option string;
  description : option string;
  source : option string;
  url : option string;
  published_at : option timestamp;
  fetch_timestamp : option timestamp;
  company : option string
}.

(** What [SentimentIntensityAnalyzer.polarity_scores] returns. *)
Record PolarityScores := mkScores {
  neg : double;
  neu : double;
  pos : double;
  compound : double
}.

(** One row of [sentiment_df]: the article's columns and the four columns
    the [withColumn] calls add. *)
Record ScoredRow := mkScored {
  article : Article;
  title_sentiment : option double;
  description_sentiment : option double;
  overall_sentiment : option double;
  sentiment_label : string
}.

(** One row of [company_sentiment]. *)
Record CompanyAggregate := mkAggregate {
  agg_company : option string;
  avg_sentiment : option double;
  article_count : Z;
  positive_ratio : option double;
  negative_ratio : option double
}.

(** ** Spark SQL column expressions on doubles *)

Module Column.

(** Spark orders doubles as IEEE-754 does, except that NaN is equal to
    itself and above every other number. *)
Definition double_ge (x y : double) : bool :=
  if PrimFloat.is_nan x then true
  else if PrimFloat.is_nan y then false
  else (y <=? x)%float.

Definition double_le (x y : double) : bool :=
  if PrimFloat.is_nan y then true
  else if PrimFloat.is_nan x then false
  else (x <=? y)%float.

(** [a + b]: null when an operand is null. *)
Definition add (a b : option double) : option double :=
  match a, b with
  | Some x, Some y => Some (x + y)%float
  | _, _ => None
  end.

(** [a / b]: null when an operand is null or the divisor is zero. *)
Definition div (a b : option double) : option double :=
  match a, b with
  | Some x, Some y =>
      if PrimFloat.eqb y 0%float then None else Some (x / y)%float
  | _, _ => None
  end.

(** [a >= lit] and [a <= lit]: null when the operand is null. *)
Definition ge (a : option double) (lit : double) : option bool :=
  match a with Some x => Some (double_ge x lit) | None => None end.

Definition le (a : option double) (lit : double) : option bool :=
  match a with Some x => Some (double_le x lit) | None => None end.

(** A [when] branch is taken only when its condition is true; a null
    condition falls through like a false one. *)
Definition holds (c : option bool) : bool :=
  match c with Some true => true | _ => false end.

(** The cast of a non-negative [long] to [double]. *)
Definition of_long (n : Z) : double := PrimFloat.of_uint63 (Uint63.of_Z n).

End Column.

(** ** Scoring: [create_sentiment_udf] and the [withColumn] chain *)

Section Scoring.

(** [analyze_sentiment(text)], the VADER call. *)
Variable analyze_sentiment : string -> PolarityScores.

(** The function wrapped by the UDF. *)
Definition get_sentiment (text : option string) : option double :=
  match text with
  | None => None
  | Some t => let scores := analyze_sentiment t in Some (compound scores)
  end.

(** [(col("title_sentiment") + col("description_sentiment")) / 2] *)
Definition overall_of (ts ds : option double) : option double :=
  Column.div (Column.add ts ds) (Some 2%float).

(** [when(overall >= 0.05, "positive").when(overall <= -0.05, "negative")
    .otherwise("neutral")] *)
Definition label_of (overall : option double) : string :=
  if Column.holds (Column.ge overall 0.05%float) then "positive"
  else if Column.holds (Column.le overall (-0.05)%float) then "negative"
  else "neutral".

Definition score_row (a : Article) : ScoredRow :=
  let ts := get_sentiment (title a) in
  let ds := get_sentiment (description a) in
  let overall := overall_of ts ds in
  {| article := a;
     title_sentiment := ts;
     description_sentiment := ds;
     overall_sentiment := overall;
     sentiment_label := label_of overall |}.

(** [sentiment_df], from the batch [df]. *)
Definition sentiment_df (df : list Article) : list ScoredRow :=
  List.map score_row df.

End Scoring.

(** ** Aggregation: [groupBy("company").agg(...)] *)

Module Aggregate.

(** Spark's [avg] keeps a buffer (sum, count): a row adds its value to the
    double [sum], a null adding [0.0], and counts when it is not null. *)
Definition update (buf : double * Z) (x : option double) : double * Z :=
  match x with
  | Some v => ((fst buf + v)%float, (snd buf + 1)%Z)
  | None => ((fst buf + 0)%float, snd buf)
  end.

Definition buffer (xs : list (option double)) : double * Z :=
  fold_left update xs (0%float, 0%Z).

(** The result is [sum / count], null when nothing was counted. *)
Definition avg (xs : list (option double)) : option double :=
  let buf := buffer xs in
  Column.div (Some (fst buf)) (Some (Column.of_long (snd buf))).

(** [when(col("sentiment_label") == lbl, 1).otherwise(0)], cast to double
    by [avg]. *)
Definition indicator (lbl : string) (r : ScoredRow) : option double :=
  Some (Column.of_long (if String.eqb (sentiment_label r) lbl then 1 else 0)).

Definition company_of (r : ScoredRow) : option string := company (article r).

Definition in_group (c : option string) (r : ScoredRow) : bool :=
  bool_decide (company_of r = c).

(** The rows of one company, in batch order. *)
Definition group (c : option string) (sdf : list ScoredRow) : list ScoredRow :=
  List.filter (in_group c) sdf.

(** The four aggregates over one group. *)
Definition agg (c : option string) (g : list ScoredRow) : CompanyAggregate :=
  {| agg_company := c;
     avg_sentiment := avg (List.map overall_sentiment g);
     article_count := Z.of_nat (length g);
     positive_ratio := avg (List.map (indicator "positive") g);
     negative_ratio := avg (List.map (indicator "negative") g) |}.

(** [company_sentiment]: one row per key of the grouping. *)
Definition company_sentiment (sdf : list ScoredRow) : list CompanyAggregate :=
  List.map (fun c => agg c (group c sdf))
           (remove_dups (List.map company_of sdf)).

End Aggregate.

(** ** Ranking: [orderBy(...).select(...).limit(3)] *)

Module Ranking.

(** Ascending order puts nulls first, descending order puts them last. *)
Definition asc (a b : option double) : bool :=
  match a, b with
  | None, _ => true
  | Some _, None => false
  | Some x, Some y => Column.double_le x y
  end.

Definition desc (a b : option double) : bool :=
  match a, b with
  | _, None => true
  | None, Some _ => false
  | Some x, Some y => Column.double_ge x y
  end.

(** The sort, as a stable insertion sort on the [overall_sentiment] key. *)
Fixpoint insert_by (before : option double -> option double -> bool)
    (r : ScoredRow) (l : list ScoredRow) : list ScoredRow :=
  match l with
  | [] => [r]
  | r' :: l' =>
      if before (overall_sentiment r) (overall_sentiment r')
      then r :: l
      else r' :: insert_by before r l'
  end.

Definition order_by (before : option double -> option double -> bool)
    (sdf : list ScoredRow) : list ScoredRow :=
  fold_right (insert_by before) [] sdf.

(** A row may come before another in the order. *)
Definition precedes (before : option double -> option double -> bool)
    (r r' : ScoredRow) : Prop :=
  before (overall_sentiment r) (overall_sentiment r') = true.

(** [select("company", "title", "overall_sentiment")] *)
Definition select (r : ScoredRow)
  : option string * option string * option double :=
  (company (article r), title (article r), overall_sentiment r).

Definition top (k : nat) (before : option double -> option double -> bool)
    (sdf : list ScoredRow) :=
  firstn k (List.map select (order_by before sdf)).

Definition most_positive (sdf : list ScoredRow) := top 3 desc sdf.
Definition most_negative (sdf : list ScoredRow) := top 3 asc sdf.

End Ranking.

(** ** Effects: standard output, the Cassandra cluster, exceptions *)

(** A row of the Cassandra table, under its primary key
    [(timestamp, company)], the timestamp in milliseconds. *)
Record StoredRow := mkStored {
  st_title : option string;
  st_description : option string;
  st_title_sentiment : option double;
  st_description_sentiment : option double;
  st_overall_sentiment : option double;
  st_sentiment_label : string
}.

(** The rows of a table by primary key, and the tables of a keyspace by
    name. *)
Abbreviation Table := (gmap (Z * string) StoredRow).
Abbreviation Keyspace := (gmap string (gmap (Z * string) StoredRow)).

(** The cluster at [localhost:9042]: whether it answers, and its keyspaces. *)
Record Cassandra := mkCassandra {
  reachable : bool;
  keyspaces : gmap string (gmap string (gmap (Z * string) StoredRow))
}.

(** What the process writes to standard output: a [print]ed string, or the
    table a [show()] renders. *)
Inductive output :=
| Print (s : string)
| ShowCompanies (rows : list CompanyAggregate)
| ShowArticles (rows : list (option string * option string * option double)).

Record World := mkWorld {
  cluster : Cassandra;
  stdout : list output
}.

(** An exception, by the text [str(e)] gives. *)
Abbreviation exn := string.

Inductive outcome (A : Type) :=
| Returned (a : A)
| Raised (e : exn).
Arguments Returned {A} a.
Arguments Raised {A} e.

(** A computation runs in a world and leaves a world, also when it raises:
    what was printed or written before the exception stays. *)
Definition M (A : Type) : Type := World -> outcome A * World.

Definition ret {A} (a : A) : M A := fun w => (Returned a, w).

Definition bind {A B} (m : M A) (k : A -> M B) : M B :=
  fun w =>
    match m w with
    | (Returned a, w') => k a w'
    | (Raised e, w') => (Raised e, w')
    end.

Definition raise {A} (e : exn) : M A := fun w => (Raised e, w).

(** [try: body except Exception as e: handler(e)] *)
Definition try_except {A} (body : M A) (handler : exn -> M A) : M A :=
  fun w =>
    match body w with
    | (Returned a, w') => (Returned a, w')
    | (Raised e, w') => handler e w'
    end.

Notation "'do' x <- m ; k" := (bind m (fun x => k))
  (at level 10, x name, m at level 100, k at level 200).

Definition emit (o : output) : M unit :=
  fun w => (Returned tt, {| cluster := cluster w; stdout := stdout w ++ [o] |}).

Definition print (s : string) : M unit := emit (Print s).

(** [for x in xs: body(x)] *)
Fixpoint for_each {A} (xs : list A) (body : A -> M unit) : M unit :=
  match xs with
  | [] => ret tt
  | x :: xs' => do _ <- body x; for_each xs' body
  end.

(** [str(n)] for an integer. *)
Definition str (n : Z) : string := NilZero.string_of_int (Z.to_int n).

Definition nl : string := String (Ascii.ascii_of_nat 10) EmptyString.

(** ** The Cassandra session *)

Module Session.

(** [cluster.connect(keyspace)]: raises when no host answers or the
    keyspace does not exist. The session is bound to the keyspace. *)
Definition connect (keyspace : string) : M string :=
  fun w =>
    if reachable (cluster w) then
      match keyspaces (cluster w) !! keyspace with
      | Some _ => (Returned keyspace, w)
      | None => (Raised ("Keyspace '" +:+ keyspace +:+ "' does not exist"), w)
      end
    else (Raised "Unable to connect to any servers", w).

(** A statement of the session: a change of the tables of its keyspace,
    or an error. *)
Definition execute (session : string)
    (stmt : gmap string (gmap (Z * string) StoredRow)
            -> outcome (gmap string (gmap (Z * string) StoredRow))) : M unit :=
  fun w =>
    match keyspaces (cluster w) !! session with
    | None => (Raised ("Keyspace '" +:+ session +:+ "' does not exist"), w)
    | Some tables =>
        match stmt tables with
        | Returned tables' =>
            (Returned tt,
             {| cluster := {| reachable := reachable (cluster w);
                              keyspaces := <[session := tables']> (keyspaces (cluster w)) |};
                stdout := stdout w |})
        | Raised e => (Raised e, w)
        end
    end.

(** [CREATE TABLE IF NOT EXISTS table (...)]: an existing table is left
    as it is, a missing one is created empty. *)
Definition create_table_if_not_exists (table : string)
    (tables : gmap string (gmap (Z * string) StoredRow))
  : outcome (gmap string (gmap (Z * string) StoredRow)) :=
  match tables !! table with
  | Some _ => Returned tables
  | None => Returned (<[table := ∅]> tables)
  end.

Definition stored (r : ScoredRow) : StoredRow :=
  {| st_title := title (article r);
     st_description := description (article r);
     st_title_sentiment := title_sentiment r;
     st_description_sentiment := description_sentiment r;
     st_overall_sentiment := overall_sentiment r;
     st_sentiment_label := sentiment_label r |}.

(** The driver encodes an instant for a CQL [timestamp] column as
    [int(seconds * 1e3 + microsecond / 1e3)]: the microseconds cut to whole
    milliseconds, toward zero. *)
Definition millis (ts : Z) : Z := Z.quot ts 1000.

(** [INSERT INTO table (...) VALUES (?, ?, ?, ?, ?, ?, ?, ?)] bound to a
    row: a null in a primary-key column is rejected; otherwise the row is
    written under its key, the millisecond of [fetch_timestamp] and the
    [company], over a row already there. *)
Definition insert_into (table : string) (r : ScoredRow)
    (tables : gmap string (gmap (Z * string) StoredRow))
  : outcome (gmap string (gmap (Z * string) StoredRow)) :=
  match tables !! table with
  | None => Raised ("unconfigured table " +:+ table)
  | Some rows =>
      match fetch_timestamp (article r), company (article r) with
      | Some ts, Some c =>
          Returned (<[table := <[(millis ts, c) := stored r]> rows]> tables)
      | None, _ => Raised "Invalid null value in condition for column timestamp"
      | _, None => Raised "Invalid null value in condition for column company"
      end
  end.

End Session.

(** ** [save_to_cassandra] *)

(** [df.collect()]: the rows the job of the frame yields, or its failure. *)
Definition collect {A} (df : outcome (list A)) : M (list A) :=
  fun w => (df, w).

(** The statement prepared between the creation of the table and the
    loop changes nothing; the frame is collected after it. *)
Definition save_to_cassandra (df : outcome (list ScoredRow))
    (keyspace table : string) : M unit :=
  do session <- Session.connect keyspace;
  do _ <- Session.execute session (Session.create_table_if_not_exists table);
  do rows <- collect df;
  do _ <- for_each rows (fun row =>
       Session.execute session (Session.insert_into table row));
  print ("Sentiment data saved to table " +:+ table +:+
         " under keyspace " +:+ keyspace +:+ ".").

(** ** [process_batch] and the streaming loop *)

(** The Spark actions of [process_batch], where a job runs. *)
Inductive action :=
| IsEmpty | ShowCompanySentiment | ShowMostPositive | ShowMostNegative | Collect.

Section Pipeline.

Variable analyze_sentiment : string -> PolarityScores.

(** The failures of the Spark runtime: whether the job of an action of
    the batch [epoch_id] fails, and with which error. *)
Variable job_failure : Z -> action -> option exn.

(** An action gives its result unless its job fails. *)
Definition run_job {A} (epoch_id : Z) (a : action) (result : A) : M A :=
  match job_failure epoch_id a with
  | Some e => raise e
  | None => ret result
  end.

(** What the job of an action yields: its result, or its failure. *)
Definition job_result {A} (epoch_id : Z) (a : action) (result : A) : outcome A :=
  match job_failure epoch_id a with
  | Some e => Raised e
  | None => Returned result
  end.

(** [show()] renders the first 20 rows. *)
Definition show_companies (epoch_id : Z) (rows : list CompanyAggregate) : M unit :=
  do rows' <- run_job epoch_id ShowCompanySentiment (firstn 20 rows);
  emit (ShowCompanies rows').

Definition show_articles (epoch_id : Z) (a : action)
    (rows : list (option string * option string * option double)) : M unit :=
  do rows' <- run_job epoch_id a (firstn 20 rows);
  emit (ShowArticles rows').

(** The body of the [try] block. *)
Definition process_batch_body (df : list Article) (epoch_id : Z) : M unit :=
  do empty <- run_job epoch_id IsEmpty (match df with [] => true | _ => false end);
  if (empty : bool) then
    print ("Batch " +:+ str epoch_id +:+ ": No data received")
  else
    do _ <- print (nl +:+ "Processing batch " +:+ str epoch_id);
    let sentiment_df := sentiment_df analyze_sentiment df in
    let company_sentiment := Aggregate.company_sentiment sentiment_df in
    do _ <- print (nl +:+ "Company Sentiment Analysis:");
    do _ <- show_companies epoch_id company_sentiment;
    do _ <- print (nl +:+ "Most Positive Articles:");
    do _ <- show_articles epoch_id ShowMostPositive (Ranking.most_positive sentiment_df);
    do _ <- print (nl +:+ "Most Negative Articles:");
    do _ <- show_articles epoch_id ShowMostNegative (Ranking.most_negative sentiment_df);
    save_to_cassandra (job_result epoch_id Collect sentiment_df)
      "stock_analysis" "news_sentiment".

Definition process_batch (df : list Article) (epoch_id : Z) : M unit :=
  try_except (process_batch_body df epoch_id)
    (fun e => print ("Error processing batch " +:+ str epoch_id +:+ ": " +:+ e)).

(** [foreachBatch(process_batch)]: the runtime calls the handler on each
    micro-batch in turn, with consecutive batch identifiers; an exception
    of the handler ends the query. *)
Fixpoint foreachBatch (handler : list Article -> Z -> M unit)
    (batches : list (list Article)) (epoch_id : Z) : M unit :=
  match batches with
  | [] => ret tt
  | df :: rest => do _ <- handler df epoch_id; foreachBatch handler rest (epoch_id + 1)
  end.

End Pipeline.

(** ** What a table holds after a run of inserts *)

(** The primary key of a row in the store, when both of its columns are
    set: the millisecond of its [fetch_timestamp], and its [company]. *)
Definition key_of (r : ScoredRow) : option (Z * string) :=
  match fetch_timestamp (article r), company (article r) with
  | Some ts, Some c => Some (Session.millis ts, c)
  | _, _ => None
  end.

(** The rows written one after the other, a later row replacing an earlier
    one under the same key. *)
Definition written (rows : list ScoredRow) (t : gmap (Z * string) StoredRow)
  : gmap (Z * string) StoredRow :=
  fold_left
    (fun t r => match key_of r with
                | Some k => <[k := Session.stored r]> t
                | None => t
                end)
    rows t.

(** The session can write to the table: its keyspace and the table exist. *)
Definition ready (session table : string) (w : World) : Prop :=
  exists tables rows,
    keyspaces (cluster w) !! session = Some tables /\ tables !! table = Some rows.

(** The rows of a table of a keyspace, if both exist. *)
Definition table_rows (keyspace table : string) (w : World)
  : option (gmap (Z * string) StoredRow) :=
  tables ← keyspaces (cluster w) !! keyspace; tables !! table.

(** ** Reference definitions for a saved batch *)

(** The last row of a batch that has the primary key [k]. *)
Definition last_with_key (k : Z * string) (rows : list ScoredRow)
  : option ScoredRow :=
  List.find (fun r => bool_decide (key_of r = Some k)) (rev rows).

(** The closing message of [save_to_cassandra]. *)
Definition saved_message (keyspace table : string) : output :=
  Print ("Sentiment data saved to table " +:+ table +:+
         " under keyspace " +:+ keyspace +:+ ".").

(** ** Reference definitions for the reports *)

(** The rows without, and with, an [overall_sentiment], in batch order. *)
Definition unscored (sdf : list ScoredRow) : list ScoredRow :=
  List.filter (fun r => match overall_sentiment r with None => true | Some _ => false end) sdf.

Definition scored_rows (sdf : list ScoredRow) : list ScoredRow :=
  List.filter (fun r => match overall_sentiment r with None => false | Some _ => true end) sdf.

(** ** Reference definitions for the aggregates *)

(** The articles of a company: the rows of the batch whose [company] cell
    is [c], in batch order; [None] is the null company. *)
Definition rows_of_company (c : option string) (sdf : list ScoredRow)
  : list ScoredRow :=
  List.filter (fun r => bool_decide (company (article r) = c)) sdf.

(** The non-null values of a column, in order. *)
Fixpoint present (col : list (option double)) : list double :=
  match col with
  | [] => []
  | Some x :: col' => x :: present col'
  | None :: col' => present col'
  end.

(** The sum of a list of doubles, taken from the left. *)
Definition double_sum (xs : list double) : double :=
  fold_left PrimFloat.add xs 0%float.

(** The arithmetic mean of a list of doubles: the sum over the length, in
    binary64; there is none for the empty list. *)
Definition mean (xs : list double) : option double :=
  Column.div (Some (double_sum xs)) (Some (Column.of_long (Z.of_nat (length xs)))).

(** The number of rows of a group that carry a label. *)
Definition count_label (lbl : string) (g : list ScoredRow) : nat :=
  length (List.filter (fun r => String.eqb (sentiment_label r) lbl) g).

(** The quotient of two counts, as doubles. *)
Definition ratio (k n : nat) : option double :=
  Column.div (Some (Column.of_long (Z.of_nat k)))
             (Some (Column.of_long (Z.of_nat n))).

(** [1.0] added [k] times to [0.0]. *)
Definition ones (k : nat) : double := Nat.iter k (fun s => (s + 1)%float) 0%float.

(** ** Binary64 mantissas *)

(** A mantissa shifted left by [n] bits. *)
Definition shl (p : positive) (n : nat) : positive := Nat.iter n xO p.

(** A shifted record with no bit lost. *)
Definition no_loss (m : Z) : shr_record :=
  {| shr_m := m; shr_r := false; shr_s := false |}.

(** A mantissa of at most 53 bits, shifted to 53 bits. *)
Definition normalized (q : positive) : positive :=
  shl q (Z.to_nat (53 - Zpos (digits2_pos q))).

(** A finite non-zero number or an infinity, of the given sign. *)
Definition signed_nonzero (sx : bool) (f : spec_float) : Prop :=
  match f with
  | S754_finite s _ _ | S754_infinity s => s = sx
  | _ => False
  end.

(** * [setup_hadoop_binaries] *)

Module Hadoop.

#[local] Open Scope list_scope.

(** The host: the entries of drive [C:] by path (the components below the
    root), the environment of the process, the lines printed. *)
Inductive entry := File | Directory.

Record Host := mkHost {
  fs : gmap (list string) entry;
  environ : gmap string string;
  console : list string
}.

(** How a download ends: the file is fetched; the connection is refused
    and nothing is written; or the transfer breaks off and [urlretrieve]
    raises with a part of the file written. *)
Inductive fetch := Fetched | Refused (e : exn) | Truncated (e : exn).

Definition H (A : Type) : Type := Host -> outcome A * Host.

Definition hret {A} (a : A) : H A := fun h => (Returned a, h).

Definition hbind {A B} (m : H A) (k : A -> H B) : H B :=
  fun h =>
    match m h with
    | (Returned a, h') => k a h'
    | (Raised e, h') => (Raised e, h')
    end.

Notation "'run' x <- m ; k" := (hbind m (fun x => k))
  (at level 10, x name, m at level 100, k at level 200).

Definition hprint (s : string) : H unit :=
  fun h => (Returned tt,
            {| fs := fs h; environ := environ h; console := console h ++ [s] |}).

Definition write (p : list string) (e : entry) (h : Host) : Host :=
  {| fs := <[p := e]> (fs h); environ := environ h; console := console h |}.

(** [Path.mkdir(parents=True, exist_ok=True)]: the missing directories of
    the path are created from the top; a component that is a file raises. *)
Fixpoint mkdir_parents (above below : list string) : H unit :=
  match below with
  | [] => hret tt
  | c :: below' =>
      fun h =>
        match fs h !! (above ++ [c]) with
        | Some File => (Raised "[Errno 17] File exists", h)
        | Some Directory => mkdir_parents (above ++ [c]) below' h
        | None => mkdir_parents (above ++ [c]) below' (write (above ++ [c]) Directory h)
        end
  end.

(** [Path.exists()] *)
Definition path_exists (p : list string) : H bool :=
  fun h => (Returned (bool_decide (is_Some (fs h !! p))), h).

(** [os.environ[k] = v] and [os.environ[k]], a [KeyError] when unset. *)
Definition setenv (k v : string) : H unit :=
  fun h => (Returned tt,
            {| fs := fs h; environ := <[k := v]> (environ h); console := console h |}).

Definition getenv (k : string) : H string :=
  fun h => match environ h !! k with
           | Some v => (Returned v, h)
           | None => (Raised ("'" +:+ k +:+ "'"), h)
           end.

Definition hadoop_dir : list string := ["hadoop"].
Definition bin_dir : list string := hadoop_dir ++ ["bin"].
Definition winutils_path : list string := bin_dir ++ ["winutils.exe"].
Definition hadoop_dll_path : list string := bin_dir ++ ["hadoop.dll"].

Definition winutils_url : string :=
  "https://github.com/cdarlint/winutils/raw/master/hadoop-3.2.0/bin/winutils.exe".
Definition hadoop_dll_url : string :=
  "https://github.com/cdarlint/winutils/raw/master/hadoop-3.2.0/bin/hadoop.dll".

Section Setup.

(** The network, by URL, and [str] of a path of drive [C:]. *)
Variable download : string -> fetch.
Variable path_str : list string -> string.

(** [urllib.request.urlretrieve(url, str(path))] *)
Definition urlretrieve (url : string) (p : list string) : H unit :=
  fun h =>
    match download url with
    | Fetched => (Returned tt, write p File h)
    | Refused e => (Raised e, h)
    | Truncated e => (Raised e, write p File h)
    end.

Definition setup_hadoop_binaries : H unit :=
  run _ <- mkdir_parents [] bin_dir;
  run winutils_there <- path_exists winutils_path;
  run _ <- (if (winutils_there : bool) then hret tt
            else run _ <- hprint "Downloading winutils.exe...";
                 urlretrieve winutils_url winutils_path);
  run dll_there <- path_exists hadoop_dll_path;
  run _ <- (if (dll_there : bool) then hret tt
            else run _ <- hprint "Downloading hadoop.dll...";
                 urlretrieve hadoop_dll_url hadoop_dll_path);
  run _ <- setenv "HADOOP_HOME" (path_str hadoop_dir);
  run path <- getenv "PATH";
  run _ <- setenv "PATH" (path_str bin_dir +:+ ";" +:+ path);
  hprint "Hadoop binaries setup completed".

End Setup.

(** [str] of a path on Windows. *)
Definition windows_str (p : list string) : string :=
  "C:" +:+ fold_right (fun c rest => "\" +:+ c +:+ rest) EmptyString p.

(** A network that answers every request, and one that answers none. *)
Definition online (url : string) : fetch := Fetched.
Definition offline (url : string) : fetch := Refused "<urlopen error timed out>".

(** A network that breaks off the transfer of [winutils.exe]. *)
Definition flaky (url : string) : fetch :=
  if String.eqb url winutils_url
  then Truncated "retrieval incomplete" else Fetched.

(** A host with an empty drive, with and without [PATH]. *)
Definition fresh_host : Host :=
  {| fs := ∅; environ := {[ "PATH" := "C:\Windows" ]}; console := [] |}.

Definition bare_host : Host :=
  {| fs := ∅; environ := ∅; console := [] |}.

(** A host with both binaries in place. *)
Definition ready_host : Host :=
  {| fs := {[ hadoop_dir := Directory; bin_dir := Directory;
              winutils_path := File; hadoop_dll_path := File ]};
     environ := {[ "PATH" := "C:\Windows" ]};
     console := [] |}.

End Hadoop.

(** * [bde/backend/coefficients_optimization.py] *)

(** ** NumPy reductions of a [float64] array *)

Module Numpy.

(** One step of [np.min] and of [np.max]: a NaN, once met, stays. *)
Definition minimum (a b : double) : double :=
  if PrimFloat.is_nan a then a else if (a <? b)%float then a else b.

Definition maximum (a b : double) : double :=
  if PrimFloat.is_nan a then a else if (b <? a)%float then a else b.

(** [np.min(xs)] and [np.max(xs)]: an empty array has no minimum. *)
Definition amin (xs : list double) : outcome double :=
  match xs with
  | [] => Raised "zero-size array to reduction operation minimum which has no identity"
  | x :: xs' => Returned (fold_left minimum xs' x)
  end.

Definition amax (xs : list double) : outcome double :=
  match xs with
  | [] => Raised "zero-size array to reduction operation maximum which has no identity"
  | x :: xs' => Returned (fold_left maximum xs' x)
  end.

End Numpy.

(** ** [normalize_sentiment] *)

Definition normalize_sentiment (sentiments : list double) : outcome (list double) :=
  match Numpy.amin sentiments with
  | Raised e => Raised e
  | Returned min_sent =>
      match Numpy.amax sentiments with
      | Raised e => Raised e
      | Returned max_sent =>
          Returned
            (if (min_sent <? max_sent)%float
             then List.map
                    (fun x => ((x - min_sent) / (max_sent - min_sent))%float)
                    sentiments
             else sentiments)
      end
  end.

(** * Properties *)

(** ** A stand-in analyzer and sample batches, for the concrete instances *)

Module Sample.

(** A four-word lexicon with compound scores of the analyzer's shape
    (four decimals, within [-1, 1]). *)
Definition lexicon (text : string) : PolarityScores :=
  let c :=
    if String.eqb text "good" then 0.4404%float
    else if String.eqb text "great" then 0.6249%float
    else if String.eqb text "bad" then (-0.5423)%float
    else if String.eqb text "Stock soars" then 0.5%float
    else 0%float in
  {| neg := 0; neu := 0; pos := 0; compound := c |}.

Definition no_failure (epoch_id : Z) (a : action) : option exn := None.

(** The job of [collect()] fails, in every batch. *)
Definition collect_fails (epoch_id : Z) (a : action) : option exn :=
  match a with
  | Collect => Some "Job aborted"
  | _ => None
  end.

(** The job of the "most positive" report fails in batch 0 only. *)
Definition report_fails_in_batch_0 (epoch_id : Z) (a : action) : option exn :=
  match a with
  | ShowMostPositive => if (epoch_id =? 0)%Z then Some "Job aborted" else None
  | _ => None
  end.

Definition news (t d c : option string) (ts : option Z) : Article :=
  {| title := t; description := d; source := None; url := None;
     published_at := None; fetch_timestamp := ts; company := c |}.

(** The literal input [{title: "Stock soars", description: null,
    company: "ACME"}]. *)
Definition stock_soars : Article :=
  news (Some "Stock soars") None (Some "ACME") None.

(** Three articles fetched one second apart; instants in microseconds. *)
Definition good_news : Article :=
  news (Some "good") (Some "good") (Some "ACME") (Some 1700000000000000%Z).
Definition great_news : Article :=
  news (Some "great") (Some "great") (Some "ACME") (Some 1700000001000000%Z).
Definition bad_news : Article :=
  news (Some "bad") (Some "bad") (Some "ACME") (Some 1700000002000000%Z).

(** A scored row with the given [overall_sentiment], both fields having
    that score. *)
Definition scored (t : string) (x : double) : ScoredRow :=
  {| article := news (Some t) (Some t) (Some "ACME") None;
     title_sentiment := Some x;
     description_sentiment := Some x;
     overall_sentiment := overall_of (Some x) (Some x);
     sentiment_label := label_of (overall_of (Some x) (Some x)) |}.

(** Five rows with overall sentiments 0.9, 0.1, -0.8, 0.5, -0.2. *)
Definition five_rows : list ScoredRow :=
  [scored "a" 0.9%float; scored "b" 0.1%float; scored "c" (-0.8)%float;
   scored "d" 0.5%float; scored "e" (-0.2)%float].

(** A second article with the primary key of [good_news]: fetched 250
    microseconds later, within the same millisecond. *)
Definition revised_news : Article :=
  news (Some "bad") (Some "bad") (Some "ACME") (Some 1700000000000250%Z).

(** A cluster that does not answer. *)
Definition unreachable : World :=
  {| cluster := {| reachable := false; keyspaces := ∅ |}; stdout := [] |}.

(** Three articles on one company, and the same three in reverse. *)
Definition three_news : list Article := [good_news; great_news; bad_news].
Definition three_news_reversed : list Article := [bad_news; great_news; good_news].

(** A row the store rejects: its [company], a primary-key column, is
    null. *)
Definition malformed_news : Article :=
  news (Some "great") (Some "great") None (Some 1700000001000000%Z).

(** A batch of three rows, the second one malformed. *)
Definition batch_of_three : list Article :=
  [good_news; malformed_news; bad_news].

(** A cluster that answers and has the keyspace, with no table yet. *)
Definition fresh : World :=
  {| cluster := {| reachable := true;
                   keyspaces := {[ "stock_analysis" := ∅ ]} |};
     stdout := [] |}.

End Sample.

(** ** Scoring *)

Section ScoringFacts.

Variable analyze_sentiment : string -> PolarityScores.

Lemma overall_of_both (ts ds : double) :
  overall_of (Some ts) (Some ds) = Some ((ts + ds) / 2)%float.
Proof. reflexivity. Qed.

Lemma overall_of_null_l (ds : option double) : overall_of None ds = None.
Proof. reflexivity. Qed.

Lemma overall_of_null_r (ts : option double) : overall_of ts None = None.
Proof. destruct ts; reflexivity. Qed.

Lemma score_row_overall (a : Article) :
  overall_sentiment (score_row analyze_sentiment a)
  = overall_of (title_sentiment (score_row analyze_sentiment a))
               (description_sentiment (score_row analyze_sentiment a)).
Proof. reflexivity. Qed.

Lemma score_row_label (a : Article) :
  sentiment_label (score_row analyze_sentiment a)
  = label_of (overall_sentiment (score_row analyze_sentiment a)).
Proof. reflexivity. Qed.

Lemma in_sentiment_df (df : list Article) (r : ScoredRow) :
  In r (sentiment_df analyze_sentiment df)
  <-> exists a, In a df /\ r = score_row analyze_sentiment a.
Proof.
  unfold sentiment_df. rewrite in_map_iff.
  split; intros (a & H1 & H2); exists a; auto.
Qed.

Lemma label_of_null : label_of None = "neutral".
Proof. reflexivity. Qed.

Lemma label_of_number (x : double) :
  PrimFloat.is_nan x = false ->
  label_of (Some x)
  = if (0.05 <=? x)%float then "positive"
    else if (x <=? -0.05)%float then "negative"
    else "neutral".
Proof.
  intros Hx. unfold label_of, Column.ge, Column.le, Column.holds,
    Column.double_ge, Column.double_le.
  rewrite Hx.
  change (PrimFloat.is_nan 0.05) with false.
  change (PrimFloat.is_nan (-0.05)) with false.
  cbv iota.
  destruct (0.05 <=? x)%float, (x <=? -0.05)%float; reflexivity.
Qed.

End ScoringFacts.

(** C1. Every row of [sentiment_df] whose [title_sentiment] and
    [description_sentiment] are both present has
    [overall_sentiment = (title_sentiment + description_sentiment) / 2],
    the sum and the quotient being those of binary64. *)
Theorem overall_sentiment_is_mean
    (analyze_sentiment : string -> PolarityScores)
    (df : list Article) (r : ScoredRow) (ts ds : double) :
  In r (sentiment_df analyze_sentiment df) ->
  title_sentiment r = Some ts ->
  description_sentiment r = Some ds ->
  overall_sentiment r = Some ((ts + ds) / 2)%float.
Proof.
  intros Hin Hts Hds.
  apply in_sentiment_df in Hin as (a & _ & ->).
  rewrite score_row_overall, Hts, Hds.
  apply overall_of_both.
Qed.

Lemma overall_sentiment_is_mean_witness :
  In (score_row Sample.lexicon Sample.good_news)
     (sentiment_df Sample.lexicon [Sample.good_news; Sample.bad_news])
  /\ overall_sentiment (score_row Sample.lexicon Sample.good_news)
     = Some ((0.4404 + 0.4404) / 2)%float.
Proof.
  split.
  - simpl. left. reflexivity.
  - apply (overall_sentiment_is_mean Sample.lexicon
             [Sample.good_news; Sample.bad_news]).
    + simpl. left. reflexivity.
    + reflexivity.
    + reflexivity.
Defined.

(** C2. A row whose [overall_sentiment] is a number is labelled by the two
    fixed thresholds: "positive" from 0.05 upwards, "negative" from -0.05
    downwards, "neutral" in between; 0.05 itself is positive and -0.05
    itself is negative. *)
Theorem sentiment_label_thresholds
    (analyze_sentiment : string -> PolarityScores)
    (df : list Article) (r : ScoredRow) (x : double) :
  In r (sentiment_df analyze_sentiment df) ->
  overall_sentiment r = Some x ->
  PrimFloat.is_nan x = false ->
  sentiment_label r
  = (if (0.05 <=? x)%float then "positive"
     else if (x <=? -0.05)%float then "negative"
     else "neutral")
  /\ label_of (Some 0.05%float) = "positive"
  /\ label_of (Some (-0.05)%float) = "negative".
Proof.
  intros Hin Hx Hnan.
  apply in_sentiment_df in Hin as (a & _ & ->).
  split; [| split; reflexivity].
  rewrite score_row_label, Hx.
  now apply label_of_number.
Qed.

Lemma sentiment_label_thresholds_witness :
  sentiment_label (score_row Sample.lexicon Sample.bad_news) = "negative".
Proof.
  apply (sentiment_label_thresholds Sample.lexicon
           [Sample.good_news; Sample.bad_news]
           (score_row Sample.lexicon Sample.bad_news) (-0.5423)%float).
  - simpl. right. left. reflexivity.
  - reflexivity.
  - reflexivity.
Defined.

(** *** Null text fields *)

Section NullFields.

Variable analyze_sentiment : string -> PolarityScores.

Abbreviation score := (score_row analyze_sentiment).

Lemma title_sentiment_null (a : Article) :
  title_sentiment (score a) = None <-> title a = None.
Proof. simpl. destruct (title a); simpl; split; congruence. Qed.

Lemma description_sentiment_null (a : Article) :
  description_sentiment (score a) = None <-> description a = None.
Proof. simpl. destruct (description a); simpl; split; congruence. Qed.

Lemma title_sentiment_present (a : Article) (t : string) :
  title a = Some t ->
  title_sentiment (score a) = Some (compound (analyze_sentiment t)).
Proof. simpl. now intros ->. Qed.

Lemma null_sentiment_null_overall (a : Article) :
  title_sentiment (score a) = None \/ description_sentiment (score a) = None ->
  overall_sentiment (score a) = None /\ sentiment_label (score a) = "neutral".
Proof.
  intros H. rewrite score_row_label, score_row_overall.
  destruct H as [-> | ->].
  - now rewrite overall_of_null_l.
  - now rewrite overall_of_null_r.
Qed.

End NullFields.

(** C10. A row of [sentiment_df] whose [title_sentiment] or
    [description_sentiment] is null (its text field was null) has a null
    [overall_sentiment] and the label "neutral"; the row is kept in
    [sentiment_df] like any other, one row per article of the batch. *)
Theorem null_sentiment_is_neutral
    (analyze_sentiment : string -> PolarityScores)
    (df : list Article) (a : Article) :
  In a df ->
  title_sentiment (score_row analyze_sentiment a) = None
  \/ description_sentiment (score_row analyze_sentiment a) = None ->
  (title a = None \/ description a = None)
  /\ overall_sentiment (score_row analyze_sentiment a) = None
  /\ sentiment_label (score_row analyze_sentiment a) = "neutral"
  /\ In (score_row analyze_sentiment a) (sentiment_df analyze_sentiment df)
  /\ length (sentiment_df analyze_sentiment df) = length df.
Proof.
  intros Hin Hnull.
  split.
  { destruct Hnull as [H | H].
    - left. now apply title_sentiment_null in H.
    - right. now apply description_sentiment_null in H. }
  destruct (null_sentiment_null_overall analyze_sentiment a Hnull) as [Ho Hl].
  repeat split; try assumption.
  - apply in_sentiment_df. now exists a.
  - unfold sentiment_df. apply length_map.
Qed.

Lemma null_sentiment_is_neutral_witness :
  overall_sentiment (score_row Sample.lexicon Sample.stock_soars) = None
  /\ sentiment_label (score_row Sample.lexicon Sample.stock_soars) = "neutral".
Proof.
  destruct (null_sentiment_is_neutral Sample.lexicon
              [Sample.stock_soars] Sample.stock_soars) as (_ & Ho & Hl & _).
  - simpl. left. reflexivity.
  - right. reflexivity.
  - split; assumption.
Defined.

(** C3, as the specification states it, fails on its own literal input:
    for [{title: "Stock soars", description: null, company: "ACME"}] the
    title is scored, yet [overall_sentiment] is null, whatever the
    analyzer returns; it is not the title's sentiment, and the row is
    labelled "neutral" like any scored row between the thresholds. *)
Lemma missing_description_no_fallback :
  ~ (exists analyze_sentiment : string -> PolarityScores,
       overall_sentiment (score_row analyze_sentiment Sample.stock_soars)
       = title_sentiment (score_row analyze_sentiment Sample.stock_soars))
  /\ (forall analyze_sentiment : string -> PolarityScores,
        overall_sentiment (score_row analyze_sentiment Sample.stock_soars) = None
        /\ sentiment_label (score_row analyze_sentiment Sample.stock_soars)
           = "neutral").
Proof.
  split.
  - intros (an & H). discriminate H.
  - intros an. split; reflexivity.
Qed.

(** C3, amended. When exactly one of [title] and [description] is null, the
    present field is scored, the missing field's sentiment is null, and
    [overall_sentiment] is null too: the null is not averaged as zero, and
    nothing falls back to the present field. The row carries the label
    "neutral". For [{title: "Stock soars", description: null, company:
    "ACME"}], [title_sentiment] is the analyzer's compound score of
    "Stock soars" and [overall_sentiment] is null. *)
Theorem one_null_field_gives_null_overall
    (analyze_sentiment : string -> PolarityScores) (a : Article) :
  (title a = None /\ description a <> None)
  \/ (title a <> None /\ description a = None) ->
  (title_sentiment (score_row analyze_sentiment a) <> None
   \/ description_sentiment (score_row analyze_sentiment a) <> None)
  /\ overall_sentiment (score_row analyze_sentiment a) = None
  /\ sentiment_label (score_row analyze_sentiment a) = "neutral"
  /\ title_sentiment (score_row analyze_sentiment Sample.stock_soars)
     = Some (compound (analyze_sentiment "Stock soars"))
  /\ overall_sentiment (score_row analyze_sentiment Sample.stock_soars) = None.
Proof.
  intros H.
  split.
  { destruct H as [[_ Hd] | [Ht _]].
    - right. now rewrite description_sentiment_null.
    - left. now rewrite title_sentiment_null. }
  assert (Hnull : title_sentiment (score_row analyze_sentiment a) = None
                  \/ description_sentiment (score_row analyze_sentiment a) = None).
  { destruct H as [[Ht _] | [_ Hd]].
    - left. now apply title_sentiment_null.
    - right. now apply description_sentiment_null. }
  destruct (null_sentiment_null_overall analyze_sentiment a Hnull) as [Ho Hl].
  repeat split; assumption || reflexivity.
Qed.

Lemma one_null_field_gives_null_overall_witness :
  overall_sentiment (score_row Sample.lexicon Sample.stock_soars) = None
  /\ title_sentiment (score_row Sample.lexicon Sample.stock_soars) = Some 0.5%float.
Proof.
  destruct (one_null_field_gives_null_overall Sample.lexicon Sample.stock_soars)
    as (_ & Ho & _ & Ht & _).
  - right. split; [discriminate | reflexivity].
  - split; [exact Ho | exact Ht].
Defined.

(** ** The store *)

Section StoreFacts.

Variables session table : string.

Lemma world_eta (w : World) :
  {| cluster := {| reachable := reachable (cluster w);
                   keyspaces := keyspaces (cluster w) |};
     stdout := stdout w |} = w.
Proof. now destruct w as [[? ?] ?]. Qed.

Lemma execute_create_existing (w : World) tables rows :
  keyspaces (cluster w) !! session = Some tables ->
  tables !! table = Some rows ->
  Session.execute session (Session.create_table_if_not_exists table) w
  = (Returned tt, w).
Proof.
  intros Hks Htbl. unfold Session.execute, Session.create_table_if_not_exists.
  rewrite Hks, Htbl, insert_id by assumption.
  now rewrite world_eta.
Qed.

Lemma execute_create_ready (w : World) tables :
  keyspaces (cluster w) !! session = Some tables ->
  exists w',
    Session.execute session (Session.create_table_if_not_exists table) w
    = (Returned tt, w')
    /\ keyspaces (cluster w')
       = <[session := <[table := default ∅ (tables !! table)]> tables]>
           (keyspaces (cluster w))
    /\ reachable (cluster w') = reachable (cluster w)
    /\ stdout w' = stdout w
    /\ ready session table w'.
Proof.
  intros Hks. unfold Session.execute, Session.create_table_if_not_exists.
  rewrite Hks. destruct (tables !! table) as [rows|] eqn:Htbl; simpl.
  - eexists. split; [reflexivity|]. simpl.
    rewrite (insert_id tables table rows) by assumption.
    repeat split. exists tables, rows. simpl. now rewrite lookup_insert_eq.
  - eexists. split; [reflexivity|]. simpl. repeat split.
    exists (<[table := ∅]> tables), ∅. simpl. now rewrite !lookup_insert_eq.
Qed.

Lemma execute_insert_keyed (w : World) (r : ScoredRow) tables rows k :
  keyspaces (cluster w) !! session = Some tables ->
  tables !! table = Some rows ->
  key_of r = Some k ->
  Session.execute session (Session.insert_into table r) w
  = (Returned tt,
     {| cluster := {| reachable := reachable (cluster w);
                      keyspaces := <[session := <[table := <[k := Session.stored r]> rows]> tables]>
                                     (keyspaces (cluster w)) |};
        stdout := stdout w |}).
Proof.
  intros Hks Htbl Hk. unfold Session.execute, Session.insert_into.
  rewrite Hks, Htbl. unfold key_of in Hk.
  destruct (fetch_timestamp (article r)), (company (article r));
    try discriminate.
  now injection Hk as <-.
Qed.


(** The loop over rows that all have their key writes them in order. *)
Lemma for_each_insert_keyed (pre : list ScoredRow) :
  forall (w : World) tables rows,
    keyspaces (cluster w) !! session = Some tables ->
    tables !! table = Some rows ->
    Forall (fun r => key_of r <> None) pre ->
    for_each pre (fun row => Session.execute session (Session.insert_into table row)) w
    = (Returned tt,
       {| cluster := {| reachable := reachable (cluster w);
                        keyspaces := <[session := <[table := written pre rows]> tables]>
                                       (keyspaces (cluster w)) |};
          stdout := stdout w |}).
Proof.
  induction pre as [|r pre IH]; intros w tables rows Hks Htbl Hall.
  - unfold written. simpl. unfold ret.
    rewrite (insert_id tables table rows), (insert_id _ session tables)
      by assumption.
    now rewrite world_eta.
  - apply Forall_cons_1 in Hall as [Hr Hall].
    destruct (key_of r) as [k|] eqn:Hk; [|contradiction].
    cbn [for_each]. unfold bind at 1.
    rewrite (execute_insert_keyed w r tables rows k) by assumption.
    erewrite IH; [| simpl; apply lookup_insert_eq | apply lookup_insert_eq | assumption ].
    simpl. unfold written at 2. simpl. rewrite Hk.
    now rewrite !insert_insert_eq.
Qed.


End StoreFacts.

(** C9. The create-table step of [save_to_cassandra] is idempotent:
    executed against a keyspace that already has the table it returns
    without error and leaves the world as it is (the one table, with its
    rows), and executing it twice in a row does what executing it once
    does. *)
Theorem create_table_idempotent (session table : string) (w : World) :
  (forall tables rows,
      keyspaces (cluster w) !! session = Some tables ->
      tables !! table = Some rows ->
      Session.execute session (Session.create_table_if_not_exists table) w
      = (Returned tt, w))
  /\ (do _ <- Session.execute session (Session.create_table_if_not_exists table);
      Session.execute session (Session.create_table_if_not_exists table)) w
     = Session.execute session (Session.create_table_if_not_exists table) w.
Proof.
  split.
  - intros tables rows. apply execute_create_existing.
  - unfold bind.
    destruct (keyspaces (cluster w) !! session) as [tables|] eqn:Hks.
    + destruct (execute_create_ready session table w tables Hks)
        as (w' & -> & _ & _ & _ & (tables' & rows' & Hks' & Htbl')).
      now apply execute_create_existing with tables' rows'.
    + unfold Session.execute. now rewrite Hks.
Qed.




(** ** The orchestrator *)

Section Orchestrator.

Variable analyze_sentiment : string -> PolarityScores.
Variable job_failure : Z -> action -> option exn.

Abbreviation body := (process_batch_body analyze_sentiment job_failure).
Abbreviation handle := (process_batch analyze_sentiment job_failure).

Lemma process_batch_returned (df : list Article) (epoch_id : Z) (w w' : World) u :
  body df epoch_id w = (Returned u, w') ->
  handle df epoch_id w = (Returned tt, w').
Proof.
  intros H. unfold process_batch, try_except. rewrite H. now destruct u.
Qed.

Lemma process_batch_raised (df : list Article) (epoch_id : Z) (w w' : World) e :
  body df epoch_id w = (Raised e, w') ->
  handle df epoch_id w
  = (Returned tt,
     {| cluster := cluster w';
        stdout := stdout w' ++
          [Print ("Error processing batch " +:+ str epoch_id +:+ ": " +:+ e)] |}).
Proof.
  intros H. unfold process_batch, try_except. now rewrite H.
Qed.

Lemma process_batch_returns (df : list Article) (epoch_id : Z) (w : World) :
  exists w', handle df epoch_id w = (Returned tt, w').
Proof.
  destruct (body df epoch_id w) as [[u|e] w'] eqn:H.
  - eexists. eapply process_batch_returned, H.
  - eexists. eapply process_batch_raised, H.
Qed.

(** The job of any action can fail, and the failure is an exception of
    the body. *)
Lemma run_job_failure {A} (epoch_id : Z) (a : action) (x : A) (e : exn) (w : World) :
  job_failure epoch_id a = Some e ->
  run_job job_failure epoch_id a x w = (Raised e, w).
Proof. unfold run_job. now intros ->. Qed.

Lemma body_raises_at_first_job (df : list Article) (epoch_id : Z) (e : exn) (w : World) :
  job_failure epoch_id IsEmpty = Some e ->
  body df epoch_id w = (Raised e, w).
Proof.
  intros H. unfold process_batch_body, bind.
  now rewrite (run_job_failure _ _ _ e).
Qed.

Lemma foreachBatch_step (df : list Article) (rest : list (list Article))
    (epoch_id : Z) (w : World) :
  foreachBatch handle (df :: rest) epoch_id w
  = foreachBatch handle rest (epoch_id + 1) (snd (handle df epoch_id w)).
Proof.
  cbn [foreachBatch]. unfold bind.
  destruct (process_batch_returns df epoch_id w) as [w' ->].
  reflexivity.
Qed.

Lemma foreachBatch_returns (batches : list (list Article)) :
  forall (epoch_id : Z) (w : World),
    exists w', foreachBatch handle batches epoch_id w = (Returned tt, w').
Proof.
  induction batches as [|df rest IH]; intros epoch_id w.
  - now exists w.
  - rewrite foreachBatch_step. apply IH.
Qed.

End Orchestrator.

(** C5. Whatever exception the body of [process_batch] raises, in whichever
    stage, [process_batch] itself returns normally: the exception is
    caught, a line naming the batch identifier and the error is printed,
    and nothing propagates to the caller. The streaming loop therefore
    goes on to the next batch after every batch, failed or not, and never
    ends with an exception. *)
Theorem process_batch_contains_errors
    (analyze_sentiment : string -> PolarityScores)
    (job_failure : Z -> action -> option exn)
    (df : list Article) (epoch_id : Z) (w : World) :
  (exists w', process_batch analyze_sentiment job_failure df epoch_id w
              = (Returned tt, w'))
  /\ (forall e w',
        process_batch_body analyze_sentiment job_failure df epoch_id w = (Raised e, w') ->
        process_batch analyze_sentiment job_failure df epoch_id w
        = (Returned tt,
           {| cluster := cluster w';
              stdout := stdout w' ++
                [Print ("Error processing batch " +:+ str epoch_id +:+ ": " +:+ e)] |}))
  /\ (forall rest,
        foreachBatch (process_batch analyze_sentiment job_failure) (df :: rest) epoch_id w
        = foreachBatch (process_batch analyze_sentiment job_failure) rest (epoch_id + 1)
            (snd (process_batch analyze_sentiment job_failure df epoch_id w)))
  /\ (forall batches,
        exists w', foreachBatch (process_batch analyze_sentiment job_failure)
                     batches epoch_id w = (Returned tt, w')).
Proof.
  split; [apply process_batch_returns|].
  split; [intros e w'; apply process_batch_raised|].
  split; [intros rest; apply foreachBatch_step|].
  intros batches. apply foreachBatch_returns.
Qed.

(** Errors of three stages, each caught and logged with its batch: a
    failing report job in batch 0, a rejected row in batch 1, an
    unreachable cluster. *)
Example failed_report_is_logged :
  stdout (snd (foreachBatch (process_batch Sample.lexicon Sample.report_fails_in_batch_0)
                 [[Sample.good_news]; []] 0 Sample.fresh))
  = [Print (nl +:+ "Processing batch 0");
     Print (nl +:+ "Company Sentiment Analysis:");
     ShowCompanies
       [{| agg_company := Some "ACME";
           avg_sentiment := Some 0.4404%float;
           article_count := 1;
           positive_ratio := Some 1%float;
           negative_ratio := Some 0%float |}];
     Print (nl +:+ "Most Positive Articles:");
     Print "Error processing batch 0: Job aborted";
     Print "Batch 1: No data received"].
Proof. vm_compute. reflexivity. Qed.

Example rejected_row_is_logged :
  last (stdout (snd (process_batch Sample.lexicon Sample.no_failure
                       Sample.batch_of_three 1 Sample.fresh)))
  = Some (Print "Error processing batch 1: Invalid null value in condition for column company").
Proof. vm_compute. reflexivity. Qed.

Example unreachable_cluster_is_logged :
  process_batch Sample.lexicon Sample.no_failure [] 2
    {| cluster := {| reachable := false; keyspaces := ∅ |}; stdout := [] |}
  = (Returned tt,
     {| cluster := {| reachable := false; keyspaces := ∅ |};
        stdout := [Print "Batch 2: No data received"] |})
  /\ last (stdout (snd (process_batch Sample.lexicon Sample.no_failure
                          [Sample.good_news] 2
                          {| cluster := {| reachable := false; keyspaces := ∅ |};
                             stdout := [] |})))
     = Some (Print "Error processing batch 2: Unable to connect to any servers").
Proof. vm_compute. split; reflexivity. Qed.

(** ** The order on doubles *)

Module DoubleOrder.

Lemma SFcompare_antisym (s1 s2 : spec_float) :
  SFcompare s2 s1 = option_map CompOpp (SFcompare s1 s2).
Proof.
  destruct s1 as [b1|b1| |b1 m1 e1], s2 as [b2|b2| |b2 m2 e2];
    try destruct b1; try destruct b2; try reflexivity; simpl;
    rewrite (Z.compare_antisym e1 e2);
    destruct (e1 ?= e2)%Z; simpl; try reflexivity;
    pose proof (Pos.compare_cont_antisym m1 m2 Eq) as H; simpl in H;
    rewrite <- H; now destruct (Pos.compare_cont Eq m1 m2).
Qed.

Lemma SFcompare_refl (s : spec_float) :
  s <> S754_nan -> SFcompare s s = Some Eq.
Proof.
  destruct s as [b|b| |b m e]; try destruct b; try easy; intros _; simpl;
    rewrite Z.compare_refl, Pos.compare_cont_refl; reflexivity.
Qed.

Lemma is_nan_spec (x : double) :
  PrimFloat.is_nan x = true <-> Prim2SF x = S754_nan.
Proof.
  unfold PrimFloat.is_nan. rewrite FloatAxioms.eqb_spec. unfold SFeqb.
  split.
  - intros H. destruct (Prim2SF x) eqn:E; try reflexivity;
      rewrite SFcompare_refl in H by discriminate; discriminate.
  - now intros ->.
Qed.

Lemma SFcompare_not_nan (s1 s2 : spec_float) :
  s1 <> S754_nan -> s2 <> S754_nan -> SFcompare s1 s2 <> None.
Proof. destruct s1, s2; simpl; congruence. Qed.

(** Two numbers are comparable one way or the other. *)
Lemma leb_total (x y : double) :
  PrimFloat.is_nan x = false -> PrimFloat.is_nan y = false ->
  (x <=? y)%float = true \/ (y <=? x)%float = true.
Proof.
  intros Hx Hy. rewrite !FloatAxioms.leb_spec. unfold SFleb.
  rewrite (SFcompare_antisym (Prim2SF x) (Prim2SF y)).
  assert (Prim2SF x <> S754_nan) as Nx
    by (intros E; apply is_nan_spec in E; congruence).
  assert (Prim2SF y <> S754_nan) as Ny
    by (intros E; apply is_nan_spec in E; congruence).
  pose proof (SFcompare_not_nan _ _ Nx Ny) as Hc.
  destruct (SFcompare (Prim2SF x) (Prim2SF y)) as [[]|]; simpl; auto;
    contradiction.
Qed.

Lemma double_le_total (x y : double) :
  Column.double_le x y = true \/ Column.double_le y x = true.
Proof.
  unfold Column.double_le.
  destruct (PrimFloat.is_nan x) eqn:Hx, (PrimFloat.is_nan y) eqn:Hy; auto.
  now apply leb_total.
Qed.

Lemma double_ge_total (x y : double) :
  Column.double_ge x y = true \/ Column.double_ge y x = true.
Proof.
  unfold Column.double_ge.
  destruct (PrimFloat.is_nan x) eqn:Hx, (PrimFloat.is_nan y) eqn:Hy; auto.
  destruct (leb_total x y Hx Hy); auto.
Qed.

End DoubleOrder.

(** ** Ranking *)

Section RankingFacts.

Variable before : option double -> option double -> bool.
Hypothesis before_total : forall a b, before a b = true \/ before b a = true.

Abbreviation precedes := (Ranking.precedes before).

Lemma insert_by_perm (r : ScoredRow) (l : list ScoredRow) :
  Permutation (Ranking.insert_by before r l) (r :: l).
Proof.
  induction l as [|r' l IH]; simpl.
  - reflexivity.
  - destruct (before _ _); [reflexivity|].
    rewrite IH. apply perm_swap.
Qed.

Lemma order_by_perm (sdf : list ScoredRow) :
  Permutation (Ranking.order_by before sdf) sdf.
Proof.
  induction sdf as [|r sdf IH]; simpl.
  - reflexivity.
  - rewrite insert_by_perm. now constructor.
Qed.

Lemma insert_by_hd (r x : ScoredRow) (l : list ScoredRow) :
  precedes x r -> HdRel precedes x l ->
  HdRel precedes x (Ranking.insert_by before r l).
Proof.
  intros Hxr Hl. destruct l as [|r' l]; simpl.
  - now constructor.
  - destruct (before _ _); constructor; [assumption|].
    now inversion Hl.
Qed.

Lemma insert_by_sorted (r : ScoredRow) (l : list ScoredRow) :
  Sorted precedes l -> Sorted precedes (Ranking.insert_by before r l).
Proof.
  induction 1 as [|r' l Hs IH Hhd]; simpl.
  - repeat constructor.
  - destruct (before (overall_sentiment r) (overall_sentiment r')) eqn:E.
    + constructor; [now constructor|]. now constructor.
    + constructor; [assumption|].
      apply insert_by_hd; [|assumption].
      unfold Ranking.precedes.
      destruct (before_total (overall_sentiment r) (overall_sentiment r'));
        congruence.
Qed.

Lemma order_by_sorted (sdf : list ScoredRow) :
  Sorted precedes (Ranking.order_by before sdf).
Proof.
  induction sdf as [|r sdf IH]; simpl.
  - constructor.
  - now apply insert_by_sorted.
Qed.

End RankingFacts.

Lemma asc_total (a b : option double) :
  Ranking.asc a b = true \/ Ranking.asc b a = true.
Proof.
  destruct a, b; simpl; auto. apply DoubleOrder.double_le_total.
Qed.

Lemma desc_total (a b : option double) :
  Ranking.desc a b = true \/ Ranking.desc b a = true.
Proof.
  destruct a, b; simpl; auto. apply DoubleOrder.double_ge_total.
Qed.

(** C8. The two reports sort [sentiment_df] by [overall_sentiment],
    descending for the most positive articles and ascending for the most
    negative ones, and keep the first 3 rows. On five rows with overall
    sentiments 0.9, 0.1, -0.8, 0.5, -0.2 the most positive are 0.9, 0.5,
    0.1 and the most negative are -0.8, -0.2, 0.1, in that order. *)
Theorem extremal_selection (sdf : list ScoredRow) :
  (Ranking.most_positive sdf
   = firstn 3 (List.map Ranking.select (Ranking.order_by Ranking.desc sdf))
   /\ Permutation (Ranking.order_by Ranking.desc sdf) sdf
   /\ Sorted (Ranking.precedes Ranking.desc) (Ranking.order_by Ranking.desc sdf))
  /\ (Ranking.most_negative sdf
      = firstn 3 (List.map Ranking.select (Ranking.order_by Ranking.asc sdf))
      /\ Permutation (Ranking.order_by Ranking.asc sdf) sdf
      /\ Sorted (Ranking.precedes Ranking.asc) (Ranking.order_by Ranking.asc sdf))
  /\ (List.map overall_sentiment sdf
      = [Some 0.9; Some 0.1; Some (-0.8); Some 0.5; Some (-0.2)]%float ->
      List.map snd (Ranking.most_positive sdf)
      = [Some 0.9; Some 0.5; Some 0.1]%float
      /\ List.map snd (Ranking.most_negative sdf)
         = [Some (-0.8); Some (-0.2); Some 0.1]%float).
Proof.
  split; [|split].
  - split; [reflexivity|]. split.
    + apply order_by_perm.
    + apply order_by_sorted, desc_total.
  - split; [reflexivity|]. split.
    + apply order_by_perm.
    + apply order_by_sorted, asc_total.
  - intros H.
    destruct sdf as [|[a1 t1 d1 o1 l1] [|[a2 t2 d2 o2 l2] [|[a3 t3 d3 o3 l3]
      [|[a4 t4 d4 o4 l4] [|[a5 t5 d5 o5 l5] [|]]]]]]; try discriminate H.
    simpl in H. injection H as -> -> -> -> ->.
    split; vm_compute; reflexivity.
Qed.

Lemma extremal_selection_witness :
  List.map snd (Ranking.most_positive Sample.five_rows)
  = [Some 0.9; Some 0.5; Some 0.1]%float
  /\ List.map snd (Ranking.most_negative Sample.five_rows)
     = [Some (-0.8); Some (-0.2); Some 0.1]%float.
Proof.
  apply (extremal_selection Sample.five_rows).
  reflexivity.
Defined.


(** ** Binary64 arithmetic on the specification of floats *)

Module Binary64.

#[local] Open Scope Z_scope.

(** Iteration over a positive is iteration over its natural number. *)
Lemma iter_pos_nat {A} (f : A -> A) (n : positive) :
  forall x, SpecFloat.iter_pos f n x = Nat.iter (Pos.to_nat n) f x.
Proof.
  induction n as [n IH|n IH|]; intros x; cbn [SpecFloat.iter_pos].
  - rewrite !IH, Pos2Nat.inj_xI, <- Nat.iter_add, <- Nat.iter_succ_r.
    f_equal. lia.
  - rewrite !IH, Pos2Nat.inj_xO, <- Nat.iter_add. f_equal. lia.
  - reflexivity.
Qed.

Lemma pos_iter_shl (p n : positive) : Pos.iter xO p n = shl p (Pos.to_nat n).
Proof. unfold shl. rewrite Pos2Nat.inj_iter. now induction (Pos.to_nat n); simpl; f_equal. Qed.

Lemma shl_Z (p : positive) (n : nat) : Zpos (shl p n) = Zpos p * 2 ^ Z.of_nat n.
Proof.
  induction n as [|n IH].
  - simpl. lia.
  - unfold shl in *. simpl Nat.iter. rewrite (Pos2Z.inj_xO (Nat.iter n xO p)), IH, Nat2Z.inj_succ, Z.pow_succ_r by lia. lia.
Qed.

Lemma digits_shl (p : positive) (n : nat) :
  Zpos (digits2_pos (shl p n)) = Zpos (digits2_pos p) + Z.of_nat n.
Proof.
  induction n as [|n IH].
  - simpl. lia.
  - unfold shl in *. simpl Nat.iter. simpl digits2_pos. rewrite Pos2Z.inj_succ, IH. lia.
Qed.

Lemma digits_bounds (p : positive) :
  2 ^ (Zpos (digits2_pos p) - 1) <= Zpos p < 2 ^ Zpos (digits2_pos p).
Proof.
  induction p as [p IH|p IH|]; simpl digits2_pos.
  - rewrite Pos2Z.inj_succ, (Pos2Z.inj_xI p).
    replace (Z.succ (Zpos (digits2_pos p)) - 1) with (Z.succ (Zpos (digits2_pos p) - 1)) by lia.
    rewrite !Z.pow_succ_r by lia.
    set (A := 2 ^ (Z.pos (digits2_pos p) - 1)) in *; set (B := 2 ^ Z.pos (digits2_pos p)) in *; clearbody A B; lia.
  - rewrite Pos2Z.inj_succ, (Pos2Z.inj_xO p).
    replace (Z.succ (Zpos (digits2_pos p)) - 1) with (Z.succ (Zpos (digits2_pos p) - 1)) by lia.
    rewrite !Z.pow_succ_r by lia.
    set (A := 2 ^ (Z.pos (digits2_pos p) - 1)) in *; set (B := 2 ^ Z.pos (digits2_pos p)) in *; clearbody A B; lia.
  - simpl. lia.
Qed.

(** A right shift halves the mantissa. *)
Lemma shr_1_m (mrs : shr_record) : 0 <= shr_m mrs -> shr_m (shr_1 mrs) = Z.div2 (shr_m mrs).
Proof.
  destruct mrs as [m r s]. simpl. intros H.
  destruct m as [|[p|p|]|p]; try reflexivity. lia.
Qed.

Lemma shr_iter_m (n : nat) : forall mrs, 0 <= shr_m mrs ->
  shr_m (Nat.iter n shr_1 mrs) = shr_m mrs / 2 ^ Z.of_nat n.
Proof.
  induction n as [|n IH]; intros mrs H.
  - simpl. now rewrite Z.div_1_r.
  - rewrite Nat.iter_succ_r, IH.
    + rewrite shr_1_m, Z.div2_div by assumption.
      rewrite Nat2Z.inj_succ, Z.pow_succ_r, Z.div_div by lia. reflexivity.
    + rewrite shr_1_m, Z.div2_div by assumption. apply Z.div_pos; lia.
Qed.

Lemma shr_1_exact (p : positive) : shr_1 (no_loss (Zpos (xO p))) = no_loss (Zpos p).
Proof. reflexivity. Qed.

Lemma shr_iter_exact (n : nat) (p : positive) :
  Nat.iter n shr_1 (no_loss (Zpos (shl p n))) = no_loss (Zpos p).
Proof.
  induction n as [|n IH].
  - reflexivity.
  - rewrite Nat.iter_succ_r. change (shl p (S n)) with (xO (shl p n)).
    rewrite shr_1_exact. apply IH.
Qed.


Lemma fexp64_eq (e : Z) : fexp prec emax e = Z.max (e - 53) (-1074).
Proof. reflexivity. Qed.

(** Rounding a non-zero mantissa whose exponent is at least [emin] never
    gives zero: the addition of two numbers is [-0.0] only when both are. *)
Lemma shr_fexp_pos (m e : Z) (l : location) :
  0 < m -> -1074 <= e ->
  0 < shr_m (fst (shr_fexp prec emax m e l)) /\ e <= snd (shr_fexp prec emax m e l).
Proof.
  intros Hm He. destruct m as [|p|p]; try lia.
  unfold shr_fexp, shr. rewrite fexp64_eq. cbn [Zdigits2].
  assert (Hrec : shr_m (shr_record_of_loc (Zpos p) l) = Zpos p)
    by (destruct l as [|[]]; reflexivity).
  destruct (Z.max (Zpos (digits2_pos p) + e - 53) (-1074) - e) as [|q|q] eqn:Hn;
    cbn [fst snd]; rewrite ?Hrec; try lia.
  split; [|lia].
  rewrite iter_pos_nat, shr_iter_m, Hrec, positive_nat_Z by (rewrite Hrec; lia).
  pose proof (digits_bounds p) as [Hd _].
  assert (Hq : Zpos q <= Zpos (digits2_pos p) - 1) by lia.
  apply Z.div_str_pos. split; [apply Z.pow_pos_nonneg; lia|].
  eapply Z.le_trans; [|exact Hd]. apply Z.pow_le_mono_r; lia.
Qed.

Lemma round_nearest_even_pos (m : Z) (l : location) :
  0 < m -> 0 < round_nearest_even m l.
Proof.
  intros H. destruct l as [|[]]; simpl; try lia. destruct (Z.even m); lia.
Qed.

Lemma binary_round_aux_nonzero (sx : bool) (m e : Z) (l : location) :
  0 < m -> -1074 <= e -> signed_nonzero sx (binary_round_aux prec emax sx m e l).
Proof.
  intros Hm He. unfold binary_round_aux.
  destruct (shr_fexp_pos m e l Hm He) as [H1 H1'].
  destruct (shr_fexp prec emax m e l) as [mrs' e'] eqn:E1. cbn [fst snd] in *.
  pose proof (round_nearest_even_pos _ (loc_of_shr_record mrs') H1) as H2.
  destruct (shr_fexp_pos _ e' loc_Exact H2 ltac:(lia)) as [H3 _].
  destruct (shr_fexp prec emax (round_nearest_even _ _) e' loc_Exact) as [mrs'' e''].
  cbn [fst] in H3.
  destruct (shr_m mrs''); try lia.
  now destruct (e'' <=? emax - prec).
Qed.

Lemma binary_round_nonzero (sx : bool) (p : positive) (e : Z) :
  -1074 <= e -> signed_nonzero sx (binary_round prec emax sx p e).
Proof.
  intros He. unfold binary_round, shl_align. rewrite fexp64_eq.
  destruct (Z.max (Zpos (digits2_pos p) + e - 53) (-1074) - e) eqn:Hn;
    apply binary_round_aux_nonzero; lia.
Qed.

Lemma valid_exponent (s : bool) (m : positive) (e : Z) :
  SpecFloat.valid_binary prec emax (S754_finite s m e) = true -> -1074 <= e.
Proof.
  simpl. unfold bounded, canonical_mantissa. rewrite fexp64_eq.
  intros H. apply andb_prop in H as [H _]. apply Z.eqb_eq in H. lia.
Qed.

Lemma binary_normalize_not_neg_zero (m e : Z) :
  -1074 <= e -> binary_normalize prec emax m e false <> S754_zero true.
Proof.
  intros He E. destruct m as [|p|p]; simpl in E; try discriminate.
  - pose proof (binary_round_nonzero false p e He) as Hs. now rewrite E in Hs.
  - pose proof (binary_round_nonzero true p e He) as Hs. now rewrite E in Hs.
Qed.

Lemma SFadd_neg_zero (x y : spec_float) :
  SpecFloat.valid_binary prec emax x = true ->
  SpecFloat.valid_binary prec emax y = true ->
  SFadd prec emax x y = S754_zero true ->
  x = S754_zero true /\ y = S754_zero true.
Proof.
  intros Vx Vy.
  destruct x as [sx|sx| |sx mx ex], y as [sy|sy| |sy my ey]; simpl;
    try destruct sx; try destruct sy; try discriminate; auto.
  all: apply valid_exponent in Vx, Vy; intros H; exfalso.
  all: eapply binary_normalize_not_neg_zero; [|exact H]; lia.
Qed.

Lemma add_neg_zero (x y : float) :
  Prim2SF (x + y)%float = S754_zero true ->
  Prim2SF x = S754_zero true /\ Prim2SF y = S754_zero true.
Proof.
  rewrite FloatAxioms.add_spec. apply SFadd_neg_zero; apply Prim2SF_valid.
Qed.

Lemma add_zero_r (x : float) :
  Prim2SF x <> S754_zero true -> (x + 0)%float = x.
Proof.
  intros H. apply Prim2SF_inj. rewrite FloatAxioms.add_spec.
  change (Prim2SF 0%float) with (S754_zero false).
  destruct (Prim2SF x) as [[]|[]| |s m e]; try reflexivity. contradiction.
Qed.

Lemma shl_shl (p : positive) (a b : nat) : shl (shl p a) b = shl p (a + b).
Proof. unfold shl. rewrite Nat.add_comm. now rewrite Nat.iter_add. Qed.

Lemma shl_align_left (m : positive) (e e' : Z) :
  e' <= e -> shl_align m e e' = (shl m (Z.to_nat (e - e')), e').
Proof.
  intros H. unfold shl_align.
  destruct (e' - e) as [|d|d] eqn:Hd; try lia.
  - replace (e - e') with 0 by lia. simpl. f_equal. lia.
  - rewrite pos_iter_shl. do 2 f_equal. lia.
Qed.

Lemma shl_align_none (m : positive) (e e' : Z) :
  e <= e' -> shl_align m e e' = (m, e).
Proof.
  intros H. unfold shl_align. destruct (e' - e) as [|d|d] eqn:Hd; try lia; reflexivity.
Qed.

Lemma shr_exact (c : positive) (j : nat) (e : Z) :
  shr (no_loss (Zpos (shl c j))) e (Z.of_nat j) = (no_loss (Zpos c), e + Z.of_nat j).
Proof.
  destruct j as [|j].
  - unfold shr. simpl. f_equal. lia.
  - change (Z.of_nat (S j)) with (Zpos (Pos.of_succ_nat j)). unfold shr.
    rewrite iter_pos_nat, SuccNat2Pos.id_succ, shr_iter_exact. reflexivity.
Qed.

(** Rounding a 53-bit mantissa shifted left gives that mantissa back. *)
Lemma binary_round_aux_shifted (sx : bool) (c : positive) (j : nat) (e : Z) :
  Zpos (digits2_pos c) = 53 ->
  -1074 <= e + Z.of_nat j <= 971 ->
  binary_round_aux prec emax sx (Zpos (shl c j)) e loc_Exact
  = S754_finite sx c (e + Z.of_nat j).
Proof.
  intros Hc He. unfold binary_round_aux, shr_fexp.
  cbn [Zdigits2 shr_record_of_loc]. fold (no_loss (Zpos (shl c j))).
  rewrite digits_shl, Hc, fexp64_eq.
  replace (Z.max (53 + Z.of_nat j + e - 53) (-1074) - e) with (Z.of_nat j) by lia.
  rewrite shr_exact. cbn [shr_m no_loss loc_of_shr_record round_nearest_even Zdigits2 shr_record_of_loc].
  rewrite Hc, fexp64_eq.
  replace (Z.max (53 + (e + Z.of_nat j) - 53) (-1074) - (e + Z.of_nat j)) with 0 by lia.
  cbn [shr shr_m].
  change (emax - prec) with 971.
  destruct (Z.leb_spec (e + Z.of_nat j) 971); [reflexivity | lia].
Qed.

Lemma digits_normalized (q : positive) :
  Zpos (digits2_pos q) <= 53 -> Zpos (digits2_pos (normalized q)) = 53.
Proof. intros H. unfold normalized. rewrite digits_shl. lia. Qed.

Lemma binary_round_small (sx : bool) (q : positive) :
  Zpos (digits2_pos q) <= 53 ->
  binary_round prec emax sx q 0
  = S754_finite sx (normalized q) (Zpos (digits2_pos q) - 53).
Proof.
  intros Hq. unfold binary_round. rewrite fexp64_eq.
  rewrite shl_align_left by lia.
  replace (Z.to_nat (0 - _)) with (Z.to_nat (53 - Zpos (digits2_pos q))) by (f_equal; lia).
  fold (normalized q).
  change (Zpos (normalized q)) with (Zpos (shl (normalized q) 0)).
  rewrite binary_round_aux_shifted.
  - f_equal. lia.
  - now apply digits_normalized.
  - lia.
Qed.

Lemma binary_round_scaled (sx : bool) (q : positive) :
  Zpos (digits2_pos q) <= 53 ->
  binary_round prec emax sx (shl q 52) (-52)
  = S754_finite sx (normalized q) (Zpos (digits2_pos q) - 53).
Proof.
  intros Hq. unfold binary_round. rewrite fexp64_eq, digits_shl.
  rewrite shl_align_none by lia.
  replace (shl q 52) with (shl (normalized q) (Z.to_nat (Zpos (digits2_pos q) - 1))).
  - rewrite binary_round_aux_shifted.
    + f_equal. lia.
    + now apply digits_normalized.
    + lia.
  - unfold normalized. rewrite shl_shl. f_equal. lia.
Qed.

(** Adding one to an integer below 2^53 is exact. *)
Lemma SFadd_one (p : positive) :
  Zpos (digits2_pos p) <= 53 -> Zpos (digits2_pos (p + 1)) <= 53 ->
  SFadd prec emax (binary_round prec emax false p 0) (S754_finite false (shl 1 52) (-52))
  = binary_round prec emax false (p + 1) 0.
Proof.
  intros Hp Hq. rewrite !binary_round_small by assumption.
  unfold SFadd. cbn [cond_Zopp].
  replace (Z.min (Zpos (digits2_pos p) - 53) (-52)) with (-52) by lia.
  rewrite !shl_align_left by lia. cbn [fst].
  unfold normalized. rewrite shl_shl.
  replace (Z.to_nat (53 - Zpos (digits2_pos p)) + Z.to_nat (Zpos (digits2_pos p) - 53 - -52))%nat
    with 52%nat by lia.
  replace (Z.to_nat (-52 - -52)) with 0%nat by lia.
  replace (Zpos (shl p 52) + Zpos (shl (shl 1 52) 0)) with (Zpos (shl (p + 1) 52)).
  - cbn [binary_normalize]. rewrite binary_round_scaled by assumption. reflexivity.
  - change (shl (shl 1 52) 0) with (shl 1 52). rewrite !shl_Z. lia.
Qed.

End Binary64.

(** ** Sums of doubles *)

Module DoubleSum.

Lemma of_long_spec (k : Z) :
  (0 <= k < 2 ^ 63)%Z ->
  Prim2SF (Column.of_long k) = binary_normalize prec emax k 0 false.
Proof.
  intros Hk. unfold Column.of_long.
  rewrite of_uint63_spec, Uint63.of_Z_spec.
  now rewrite Z.mod_small.
Qed.

Lemma digits_small (p : positive) :
  (Zpos p < 2 ^ 53)%Z -> (Zpos (digits2_pos p) <= 53)%Z.
Proof.
  intros Hp. destruct (Binary64.digits_bounds p) as [Hd _].
  assert (H : (2 ^ (Zpos (digits2_pos p) - 1) < 2 ^ 53)%Z) by lia.
  apply Z.pow_lt_mono_r_iff in H; lia.
Qed.

(** Adding [1.0] to a count below 2^53 is exact. *)
Lemma of_long_succ (k : Z) :
  (0 <= k)%Z -> (k + 1 < 2 ^ 53)%Z ->
  (Column.of_long k + 1)%float = Column.of_long (k + 1).
Proof.
  intros H0 Hk. apply Prim2SF_inj.
  rewrite FloatAxioms.add_spec, !of_long_spec by lia.
  change (Prim2SF 1%float) with (S754_finite false (shl 1 52) (-52)).
  destruct k as [|p|p]; [reflexivity| |lia].
  change (Zpos p + 1)%Z with (Zpos (p + 1)).
  cbn [binary_normalize].
  apply Binary64.SFadd_one; apply digits_small; lia.
Qed.

Lemma ones_succ (k : nat) : ones (S k) = (ones k + 1)%float.
Proof. reflexivity. Qed.

Lemma ones_exact (k : nat) :
  (Z.of_nat k < 2 ^ 53)%Z -> ones k = Column.of_long (Z.of_nat k).
Proof.
  induction k as [|k IH]; intros Hk.
  - reflexivity.
  - rewrite ones_succ, IH, of_long_succ by lia. f_equal. lia.
Qed.

Lemma ones_not_neg_zero (k : nat) : Prim2SF (ones k) <> S754_zero true.
Proof.
  destruct k as [|k].
  - discriminate.
  - rewrite ones_succ. intros H.
    apply Binary64.add_neg_zero in H as [_ H]. discriminate H.
Qed.

(** The buffer of [avg] over a column: nulls leave the sum and the count
    as they are. *)
Lemma fold_update (col : list (option double)) :
  forall (s : double) (n : Z),
    Prim2SF s <> S754_zero true ->
    fold_left Aggregate.update col (s, n)
    = (fold_left PrimFloat.add (present col) s,
       (n + Z.of_nat (length (present col)))%Z).
Proof.
  induction col as [|[v|] col IH]; intros s n Hs; simpl.
  - f_equal. lia.
  - rewrite IH.
    + f_equal. lia.
    + intros H. apply Binary64.add_neg_zero in H as [H _]. contradiction.
  - rewrite Binary64.add_zero_r by assumption. now apply IH.
Qed.

Lemma avg_mean (col : list (option double)) :
  Aggregate.avg col = mean (present col).
Proof.
  unfold Aggregate.avg, Aggregate.buffer, mean, double_sum.
  rewrite fold_update by discriminate. reflexivity.
Qed.

(** The buffer of [avg] over a 0/1 column: the sum is as many ones as
    there are rows with the label. *)
Lemma fold_update_indicator (lbl : string) (g : list ScoredRow) :
  forall (a : nat) (n : Z),
    fold_left Aggregate.update (List.map (Aggregate.indicator lbl) g) (ones a, n)
    = (ones (a + count_label lbl g), (n + Z.of_nat (length g))%Z).
Proof.
  unfold count_label.
  induction g as [|r g IH]; intros a n; simpl.
  - rewrite Nat.add_0_r. f_equal. lia.
  - destruct (String.eqb (sentiment_label r) lbl); simpl.
    + change (Column.of_long 1) with 1%float.
      rewrite <- ones_succ, IH. f_equal; [f_equal|]; lia.
    + change (Column.of_long 0) with 0%float.
      rewrite Binary64.add_zero_r by apply ones_not_neg_zero.
      rewrite IH. f_equal. lia.
Qed.

Lemma avg_indicator (lbl : string) (g : list ScoredRow) :
  Aggregate.avg (List.map (Aggregate.indicator lbl) g)
  = Column.div (Some (ones (count_label lbl g)))
               (Some (Column.of_long (Z.of_nat (length g)))).
Proof.
  unfold Aggregate.avg, Aggregate.buffer.
  change 0%float with (ones 0).
  now rewrite fold_update_indicator.
Qed.

Lemma count_label_le (lbl : string) (g : list ScoredRow) :
  (count_label lbl g <= length g)%nat.
Proof. unfold count_label. apply filter_length_le. Qed.

Lemma avg_indicator_ratio (lbl : string) (g : list ScoredRow) :
  (Z.of_nat (length g) < 2 ^ 53)%Z ->
  Aggregate.avg (List.map (Aggregate.indicator lbl) g)
  = ratio (count_label lbl g) (length g).
Proof.
  intros H. rewrite avg_indicator, ones_exact; [reflexivity|].
  pose proof (count_label_le lbl g). lia.
Qed.

End DoubleSum.

(** ** Aggregation *)

Section AggregationFacts.

Lemma company_sentiment_keys (sdf : list ScoredRow) :
  List.map agg_company (Aggregate.company_sentiment sdf)
  = remove_dups (List.map Aggregate.company_of sdf).
Proof.
  unfold Aggregate.company_sentiment. rewrite List.map_map. apply List.map_id.
Qed.

Lemma company_sentiment_keys_nodup (sdf : list ScoredRow) :
  List.NoDup (List.map agg_company (Aggregate.company_sentiment sdf)).
Proof.
  rewrite company_sentiment_keys. apply NoDup_ListNoDup, NoDup_remove_dups.
Qed.

Lemma company_sentiment_keys_in (sdf : list ScoredRow) (c : option string) :
  In c (List.map agg_company (Aggregate.company_sentiment sdf))
  <-> In c (List.map Aggregate.company_of sdf).
Proof.
  rewrite company_sentiment_keys, <- !list_elem_of_In.
  apply elem_of_remove_dups.
Qed.

Lemma in_company_sentiment (sdf : list ScoredRow) (a : CompanyAggregate) :
  In a (Aggregate.company_sentiment sdf)
  <-> In (agg_company a) (List.map Aggregate.company_of sdf)
      /\ a = Aggregate.agg (agg_company a) (Aggregate.group (agg_company a) sdf).
Proof.
  unfold Aggregate.company_sentiment. rewrite in_map_iff. split.
  - intros (c & <- & Hc). simpl. split; [|reflexivity].
    apply list_elem_of_In. apply list_elem_of_In in Hc.
    rewrite elem_of_remove_dups in Hc. exact Hc.
  - intros (Hc & Ha). exists (agg_company a). split; [now symmetry|].
    apply list_elem_of_In. rewrite elem_of_remove_dups. now apply list_elem_of_In.
Qed.

Lemma in_group_iff (c : option string) (sdf : list ScoredRow) (r : ScoredRow) :
  In r (Aggregate.group c sdf) <-> In r sdf /\ Aggregate.company_of r = c.
Proof.
  unfold Aggregate.group, Aggregate.in_group. rewrite filter_In.
  now rewrite bool_decide_eq_true.
Qed.

Lemma group_nonempty (c : option string) (sdf : list ScoredRow) :
  In c (List.map Aggregate.company_of sdf) -> Aggregate.group c sdf <> [].
Proof.
  intros H E. apply in_map_iff in H as (r & Hr & Hin).
  assert (Hg : In r (Aggregate.group c sdf)) by now apply in_group_iff.
  rewrite E in Hg. destruct Hg.
Qed.

(** The grouping of the aggregation keeps, for a key, the articles of
    that company and no others. *)
Lemma group_rows_of_company (c : option string) (sdf : list ScoredRow) :
  Aggregate.group c sdf = rows_of_company c sdf.
Proof. reflexivity. Qed.

Lemma company_sentiment_keys_rows (sdf : list ScoredRow) (c : option string) :
  In c (List.map agg_company (Aggregate.company_sentiment sdf))
  <-> exists r, In r sdf /\ company (article r) = c.
Proof.
  rewrite company_sentiment_keys_in, in_map_iff.
  split; intros (r & H1 & H2); exists r; split; assumption.
Qed.

Lemma in_company_sentiment_rows (sdf : list ScoredRow) (a : CompanyAggregate) :
  In a (Aggregate.company_sentiment sdf) ->
  rows_of_company (agg_company a) sdf <> []
  /\ a = Aggregate.agg (agg_company a) (rows_of_company (agg_company a) sdf).
Proof.
  intros Ha. apply in_company_sentiment in Ha as [Hc Ha].
  rewrite <- group_rows_of_company. split; [|exact Ha].
  now apply group_nonempty.
Qed.

Lemma filter_perm {A} (f : A -> bool) (l l' : list A) :
  Permutation l l' -> Permutation (List.filter f l) (List.filter f l').
Proof.
  induction 1 as [|x l l' _ IH|x y l|l l' l'' _ IH1 _ IH2]; simpl.
  - constructor.
  - destruct (f x); [now constructor | assumption].
  - destruct (f x), (f y); try reflexivity. apply perm_swap.
  - now transitivity (List.filter f l').
Qed.

Lemma group_perm (c : option string) (sdf sdf' : list ScoredRow) :
  Permutation sdf sdf' ->
  Permutation (Aggregate.group c sdf) (Aggregate.group c sdf').
Proof. apply filter_perm. Qed.

Lemma count_label_perm (lbl : string) (g g' : list ScoredRow) :
  Permutation g g' -> count_label lbl g = count_label lbl g'.
Proof. intros H. unfold count_label. now apply Permutation_length, filter_perm. Qed.

(** The two ratios of a group depend on the group as a multiset only. *)
Lemma avg_indicator_perm (lbl : string) (g g' : list ScoredRow) :
  Permutation g g' ->
  Aggregate.avg (List.map (Aggregate.indicator lbl) g)
  = Aggregate.avg (List.map (Aggregate.indicator lbl) g').
Proof.
  intros H. rewrite !DoubleSum.avg_indicator.
  now rewrite (count_label_perm lbl g g' H), (Permutation_length H).
Qed.

End AggregationFacts.

(** C6. [company_sentiment] has exactly one row per distinct [company] of
    the batch: no company twice, and a row for a company exactly when some
    article of the batch has that company. In the row of a company, the
    aggregates are taken over the articles of that company and no others:
    [article_count] is their number, [avg_sentiment] is the arithmetic
    mean (the binary64 sum over the count) of their [overall_sentiment]
    values, nulls left out, and [positive_ratio] and [negative_ratio] are
    the numbers of them labelled "positive" and "negative" over
    [article_count], a count below 2^53 being exactly a double. *)
Theorem company_sentiment_per_company (sdf : list ScoredRow) :
  List.NoDup (List.map agg_company (Aggregate.company_sentiment sdf))
  /\ (forall c, In c (List.map agg_company (Aggregate.company_sentiment sdf))
                <-> exists r, In r sdf /\ company (article r) = c)
  /\ (forall a, In a (Aggregate.company_sentiment sdf) ->
        article_count a
        = Z.of_nat (length (rows_of_company (agg_company a) sdf))
        /\ (1 <= article_count a)%Z
        /\ avg_sentiment a
           = mean (present (List.map overall_sentiment
                              (rows_of_company (agg_company a) sdf)))
        /\ ((article_count a < 2 ^ 53)%Z ->
            positive_ratio a
            = ratio (count_label "positive" (rows_of_company (agg_company a) sdf))
                    (length (rows_of_company (agg_company a) sdf))
            /\ negative_ratio a
               = ratio (count_label "negative" (rows_of_company (agg_company a) sdf))
                       (length (rows_of_company (agg_company a) sdf)))).
Proof.
  split; [|split].
  - apply company_sentiment_keys_nodup.
  - apply company_sentiment_keys_rows.
  - intros a Ha. apply in_company_sentiment_rows in Ha as [Hne Ha].
    set (g := rows_of_company (agg_company a) sdf) in *.
    rewrite Ha. cbn [article_count avg_sentiment positive_ratio negative_ratio Aggregate.agg].
    repeat split.
    + destruct g; [contradiction | simpl; lia].
    + apply DoubleSum.avg_mean.
    + now apply DoubleSum.avg_indicator_ratio.
    + now apply DoubleSum.avg_indicator_ratio.
Qed.

(** The batch of [Sample.batch_of_three] has two companies, the null one
    among them; the rows of the result come in no particular order. *)
Example company_sentiment_sample :
  Permutation
    (Aggregate.company_sentiment (sentiment_df Sample.lexicon Sample.batch_of_three))
    [{| agg_company := None;
        avg_sentiment := Some 0.6249%float;
        article_count := 1;
        positive_ratio := Some 1%float;
        negative_ratio := Some 0%float |};
     {| agg_company := Some "ACME";
        avg_sentiment := Some ((0.4404 + -0.5423) / 2)%float;
        article_count := 2;
        positive_ratio := Some 0.5%float;
        negative_ratio := Some 0.5%float |}].
Proof. vm_compute. reflexivity. Qed.

(** C7, as the specification states it, fails on [avg_sentiment]: the
    three articles of [Sample.three_news] have overall sentiments 0.4404,
    0.6249 and -0.5423; summed in that order their mean is
    0.17433333333333337, summed in the reverse order it is
    0.17433333333333334. *)
Lemma avg_sentiment_depends_on_order :
  Permutation Sample.three_news Sample.three_news_reversed
  /\ Aggregate.company_sentiment (sentiment_df Sample.lexicon Sample.three_news)
     = [{| agg_company := Some "ACME";
           avg_sentiment := Some 0.17433333333333337%float;
           article_count := 3;
           positive_ratio := Some (2 / 3)%float;
           negative_ratio := Some (1 / 3)%float |}]
  /\ Aggregate.company_sentiment
       (sentiment_df Sample.lexicon Sample.three_news_reversed)
     = [{| agg_company := Some "ACME";
           avg_sentiment := Some 0.17433333333333334%float;
           article_count := 3;
           positive_ratio := Some (2 / 3)%float;
           negative_ratio := Some (1 / 3)%float |}]
  /\ (0.17433333333333337 <> 0.17433333333333334)%float.
Proof.
  split; [|split; [|split]].
  - apply (Permutation_rev Sample.three_news).
  - vm_compute. reflexivity.
  - vm_compute. reflexivity.
  - discriminate.
Qed.

(** C7, amended. Permuting the articles of a batch leaves the set of
    companies of [company_sentiment] as it is, and for every company the
    [article_count], the [positive_ratio] and the [negative_ratio] of its
    row. [avg_sentiment] is a binary64 sum taken in batch order: it is
    unchanged when the company's articles keep their relative order, and
    can otherwise differ by rounding. *)
Theorem aggregation_under_permutation
    (analyze_sentiment : string -> PolarityScores) (df df' : list Article) :
  Permutation df df' ->
  Permutation
    (List.map agg_company
       (Aggregate.company_sentiment (sentiment_df analyze_sentiment df)))
    (List.map agg_company
       (Aggregate.company_sentiment (sentiment_df analyze_sentiment df')))
  /\ (forall a,
        In a (Aggregate.company_sentiment (sentiment_df analyze_sentiment df)) ->
        exists a',
          In a' (Aggregate.company_sentiment (sentiment_df analyze_sentiment df'))
          /\ agg_company a' = agg_company a
          /\ article_count a' = article_count a
          /\ positive_ratio a' = positive_ratio a
          /\ negative_ratio a' = negative_ratio a
          /\ (Aggregate.group (agg_company a) (sentiment_df analyze_sentiment df')
              = Aggregate.group (agg_company a) (sentiment_df analyze_sentiment df) ->
              a' = a)).
Proof.
  intros Hdf.
  assert (Hs : Permutation (sentiment_df analyze_sentiment df)
                           (sentiment_df analyze_sentiment df'))
    by now apply Permutation_map.
  set (sdf := sentiment_df analyze_sentiment df) in *.
  set (sdf' := sentiment_df analyze_sentiment df') in *.
  assert (Hkeys : forall c, In c (List.map Aggregate.company_of sdf)
                            <-> In c (List.map Aggregate.company_of sdf')).
  { intros c. split; apply Permutation_in.
    - now apply Permutation_map.
    - now apply Permutation_map, Permutation_sym. }
  split.
  - apply Permutation.NoDup_Permutation.
    + apply company_sentiment_keys_nodup.
    + apply company_sentiment_keys_nodup.
    + intros c. rewrite !company_sentiment_keys_in. apply Hkeys.
  - intros a Ha. apply in_company_sentiment in Ha as [Hc Ha].
    generalize dependent (agg_company a). intros c Hc ->.
    exists (Aggregate.agg c (Aggregate.group c sdf')).
    pose proof (group_perm c sdf sdf' Hs) as Hg.
    cbn [agg_company article_count positive_ratio negative_ratio Aggregate.agg].
    split; [|split; [|split; [|split; [|split]]]].
    + apply in_company_sentiment. simpl. split; [now apply Hkeys | reflexivity].
    + reflexivity.
    + f_equal. symmetry. now apply Permutation_length.
    + symmetry. now apply avg_indicator_perm.
    + symmetry. now apply avg_indicator_perm.
    + now intros ->.
Qed.

Lemma aggregation_under_permutation_witness :
  exists a',
    In a' (Aggregate.company_sentiment
             (sentiment_df Sample.lexicon Sample.three_news_reversed))
    /\ agg_company a' = Some "ACME"
    /\ article_count a' = 3%Z
    /\ positive_ratio a' = Some (2 / 3)%float
    /\ negative_ratio a' = Some (1 / 3)%float.
Proof.
  destruct (aggregation_under_permutation Sample.lexicon
              Sample.three_news Sample.three_news_reversed
              (Permutation_rev Sample.three_news)) as [_ H].
  destruct (H {| agg_company := Some "ACME";
                 avg_sentiment := Some 0.17433333333333337%float;
                 article_count := 3;
                 positive_ratio := Some (2 / 3)%float;
                 negative_ratio := Some (1 / 3)%float |})
    as (a' & Hin & Hc & Hn & Hp & Hq & _).
  - vm_compute. left. reflexivity.
  - exists a'. repeat split; assumption.
Defined.

(** * Further properties of the code *)

#[local] Open Scope list_scope.

(** ** [save_to_cassandra]: what a call leaves in the store *)

Section SaveFacts.

Variables keyspace table : string.

Lemma written_snoc (rows : list ScoredRow) (r : ScoredRow)
    (t : gmap (Z * string) StoredRow) :
  written (rows ++ [r]) t
  = match key_of r with
    | Some k => <[k := Session.stored r]> (written rows t)
    | None => written rows t
    end.
Proof. unfold written. now rewrite fold_left_app. Qed.

Lemma last_with_key_snoc (k : Z * string) (rows : list ScoredRow) (r : ScoredRow) :
  last_with_key k (rows ++ [r])
  = if bool_decide (key_of r = Some k) then Some r else last_with_key k rows.
Proof. unfold last_with_key. now rewrite rev_app_distr. Qed.

(** A key holds the last row written under it, or what it held before. *)
Lemma written_lookup (rows : list ScoredRow) (t : gmap (Z * string) StoredRow)
    (k : Z * string) :
  written rows t !! k
  = match last_with_key k rows with
    | Some r => Some (Session.stored r)
    | None => t !! k
    end.
Proof.
  induction rows as [|r rows IH] using rev_ind.
  - reflexivity.
  - rewrite written_snoc, last_with_key_snoc.
    destruct (key_of r) as [k'|] eqn:Hk.
    + case_bool_decide as Hkk.
      * injection Hkk as ->. apply lookup_insert_eq.
      * rewrite lookup_insert_ne by congruence. exact IH.
    + rewrite bool_decide_eq_false_2 by discriminate. exact IH.
Qed.

(** The key, the rows written and the last row of a key, on the columns
    themselves. *)
Lemma keyed_rows (rows : list ScoredRow) :
  Forall (fun r => fetch_timestamp (article r) <> None
                   /\ company (article r) <> None) rows ->
  Forall (fun r => key_of r <> None) rows.
Proof.
  apply List.Forall_impl. intros r [Ht Hc]. unfold key_of.
  destruct (fetch_timestamp (article r)), (company (article r)); congruence.
Qed.

Lemma written_unfolded (rows : list ScoredRow) (t : gmap (Z * string) StoredRow) :
  written rows t
  = fold_left
      (fun t r =>
         match fetch_timestamp (article r), company (article r) with
         | Some ts, Some c => <[(Z.quot ts 1000, c) := Session.stored r]> t
         | _, _ => t
         end)
      rows t.
Proof.
  unfold written. revert t. induction rows as [|r rows IH]; intros t.
  - reflexivity.
  - cbn [fold_left]. rewrite IH. f_equal. unfold key_of, Session.millis.
    destruct (fetch_timestamp (article r)), (company (article r)); reflexivity.
Qed.

Lemma last_with_key_unfolded (ms : Z) (c : string) (rows : list ScoredRow) :
  last_with_key (ms, c) rows
  = List.find
      (fun r => bool_decide
                  (option_map (fun ts => Z.quot ts 1000)
                              (fetch_timestamp (article r)) = Some ms
                   /\ company (article r) = Some c))
      (rev rows).
Proof.
  unfold last_with_key. induction (rev rows) as [|r l IH]; [reflexivity|].
  cbn [List.find]. rewrite IH.
  replace (bool_decide (key_of r = Some (ms, c)))
    with (bool_decide
            (option_map (fun ts => Z.quot ts 1000)
                        (fetch_timestamp (article r)) = Some ms
             /\ company (article r) = Some c)); [reflexivity|].
  apply bool_decide_ext. unfold key_of, Session.millis.
  destruct (fetch_timestamp (article r)), (company (article r)); simpl;
    split; try (intros [? ?]; congruence); try congruence.
  intros [= <- <-]. split; reflexivity.
Qed.

Lemma save_keyed (rows : list ScoredRow) (w : World) tables :
  reachable (cluster w) = true ->
  keyspaces (cluster w) !! keyspace = Some tables ->
  Forall (fun r => key_of r <> None) rows ->
  save_to_cassandra (Returned rows) keyspace table w
  = (Returned tt,
     {| cluster :=
          {| reachable := true;
             keyspaces :=
               <[keyspace := <[table := written rows (default ∅ (tables !! table))]> tables]>
                 (keyspaces (cluster w)) |};
        stdout := stdout w ++ [saved_message keyspace table] |}).
Proof.
  intros Hup Hks Hrows.
  unfold save_to_cassandra, bind, Session.connect, collect.
  rewrite Hup, Hks.
  destruct (execute_create_ready keyspace table w tables Hks)
    as (w1 & -> & Hks1 & Hup1 & Hout1 & _).
  rewrite (for_each_insert_keyed keyspace table rows w1
             (<[table := default ∅ (tables !! table)]> tables)
             (default ∅ (tables !! table))); try assumption.
  - unfold print, emit, saved_message. cbn [cluster stdout].
    rewrite Hks1, Hup1, Hout1, Hup. now rewrite !insert_insert_eq.
  - rewrite Hks1. apply lookup_insert_eq.
  - apply lookup_insert_eq.
Qed.

(** A frame whose [collect()] fails: the table is there, nothing is
    written to it. *)
Lemma save_uncollected (e : exn) (w : World) tables :
  reachable (cluster w) = true ->
  keyspaces (cluster w) !! keyspace = Some tables ->
  save_to_cassandra (Raised e) keyspace table w
  = (Raised e,
     {| cluster :=
          {| reachable := true;
             keyspaces :=
               <[keyspace := <[table := default ∅ (tables !! table)]> tables]>
                 (keyspaces (cluster w)) |};
        stdout := stdout w |}).
Proof.
  intros Hup Hks.
  unfold save_to_cassandra, bind, Session.connect, collect.
  rewrite Hup, Hks.
  destruct (execute_create_ready keyspace table w tables Hks)
    as (w1 & -> & Hks1 & Hup1 & Hout1 & _).
  destruct w1 as [[up1 ks1] out1]. cbn in Hks1, Hup1, Hout1.
  now rewrite Hks1, Hup1, Hout1, Hup.
Qed.

(** No connection: the call raises and leaves the world as it was. *)
Lemma save_unconnected (df : outcome (list ScoredRow)) (w : World) :
  reachable (cluster w) = false \/ keyspaces (cluster w) !! keyspace = None ->
  exists e, save_to_cassandra df keyspace table w = (Raised e, w).
Proof.
  intros H. unfold save_to_cassandra, bind, Session.connect.
  destruct (reachable (cluster w)) eqn:Hup.
  - destruct H as [H|H]; [discriminate|]. rewrite H. eexists; reflexivity.
  - eexists; reflexivity.
Qed.

Lemma table_rows_insert
    (ks : gmap string (gmap string (gmap (Z * string) StoredRow)))
    (tables : gmap string (gmap (Z * string) StoredRow))
    (t : gmap (Z * string) StoredRow) (out : list output) :
  table_rows keyspace table
    {| cluster := {| reachable := true;
                     keyspaces := <[keyspace := <[table := t]> tables]> ks |};
       stdout := out |}
  = Some t.
Proof.
  unfold table_rows. cbn [cluster keyspaces].
  rewrite lookup_insert_eq. simpl. apply lookup_insert_eq.
Qed.

End SaveFacts.

(** X1. A frame that collects to rows which all have their primary key,
    saved to a cluster that answers and has the keyspace, is written
    whole: the call returns, prints its closing message as the only
    output, creates the table when it is missing, and leaves in it the
    rows written in order over what it held, each under the millisecond
    of its [fetch_timestamp] and its [company]. *)
Theorem save_writes_every_row
    (rows : list ScoredRow) (keyspace table : string) (w : World) tables :
  reachable (cluster w) = true ->
  keyspaces (cluster w) !! keyspace = Some tables ->
  Forall (fun r => fetch_timestamp (article r) <> None
                   /\ company (article r) <> None) rows ->
  fst (save_to_cassandra (Returned rows) keyspace table w) = Returned tt
  /\ stdout (snd (save_to_cassandra (Returned rows) keyspace table w))
     = (stdout w ++ [saved_message keyspace table])%list
  /\ table_rows keyspace table
       (snd (save_to_cassandra (Returned rows) keyspace table w))
     = Some (fold_left
               (fun t r =>
                  match fetch_timestamp (article r), company (article r) with
                  | Some ts, Some c => <[(Z.quot ts 1000, c) := Session.stored r]> t
                  | _, _ => t
                  end)
               rows (default ∅ (tables !! table))).
Proof.
  intros Hup Hks Hrows. apply keyed_rows in Hrows.
  rewrite (save_keyed keyspace table rows w tables Hup Hks Hrows).
  cbn [fst snd stdout]. repeat split.
  rewrite table_rows_insert. f_equal. apply written_unfolded.
Qed.

Lemma save_writes_every_row_witness :
  fst (save_to_cassandra (Returned (sentiment_df Sample.lexicon Sample.three_news))
         "stock_analysis" "news_sentiment" Sample.fresh) = Returned tt
  /\ table_rows "stock_analysis" "news_sentiment"
       (snd (save_to_cassandra
               (Returned (sentiment_df Sample.lexicon Sample.three_news))
               "stock_analysis" "news_sentiment" Sample.fresh))
     = Some (<[(1700000002000%Z, "ACME") :=
                 Session.stored (score_row Sample.lexicon Sample.bad_news)]>
               (<[(1700000001000%Z, "ACME") :=
                    Session.stored (score_row Sample.lexicon Sample.great_news)]>
                  (<[(1700000000000%Z, "ACME") :=
                       Session.stored (score_row Sample.lexicon Sample.good_news)]>
                     ∅))).
Proof.
  destruct (save_writes_every_row
              (sentiment_df Sample.lexicon Sample.three_news)
              "stock_analysis" "news_sentiment" Sample.fresh ∅)
    as (H1 & _ & H3).
  - reflexivity.
  - reflexivity.
  - repeat constructor; discriminate.
  - split; [exact H1 | exact H3].
Defined.

(** X2. After such a save, the table holds under a key, a millisecond and
    a company, the last row of the batch fetched within that millisecond
    for that company: a later row replaces an earlier one of the same
    company whose [fetch_timestamp] falls in the same millisecond, even
    when the two instants differ. A key no row of the batch has keeps
    what the table held before. *)
Theorem save_last_write_wins
    (rows : list ScoredRow) (keyspace table : string) (w : World) tables
    (ms : Z) (c : string) :
  reachable (cluster w) = true ->
  keyspaces (cluster w) !! keyspace = Some tables ->
  Forall (fun r => fetch_timestamp (article r) <> None
                   /\ company (article r) <> None) rows ->
  (t ← table_rows keyspace table
         (snd (save_to_cassandra (Returned rows) keyspace table w));
   t !! (ms, c))
  = match List.find
            (fun r => bool_decide
                        (option_map (fun ts => Z.quot ts 1000)
                                    (fetch_timestamp (article r)) = Some ms
                         /\ company (article r) = Some c))
            (rev rows) with
    | Some r => Some (Session.stored r)
    | None => t ← tables !! table; t !! (ms, c)
    end.
Proof.
  intros Hup Hks Hrows. apply keyed_rows in Hrows.
  rewrite <- last_with_key_unfolded. set (k := (ms, c)).
  rewrite (save_keyed keyspace table rows w tables Hup Hks Hrows).
  cbn [snd]. rewrite table_rows_insert. simpl.
  rewrite written_lookup.
  destruct (last_with_key k rows); [reflexivity|].
  destruct (tables !! table); reflexivity.
Qed.

Lemma save_last_write_wins_witness :
  (t ← table_rows "stock_analysis" "news_sentiment"
         (snd (save_to_cassandra
                 (Returned
                    (sentiment_df Sample.lexicon [Sample.good_news; Sample.revised_news]))
                 "stock_analysis" "news_sentiment" Sample.fresh));
   t !! (1700000000000%Z, "ACME"))
  = Some (Session.stored (score_row Sample.lexicon Sample.revised_news)).
Proof.
  apply (save_last_write_wins
           (sentiment_df Sample.lexicon [Sample.good_news; Sample.revised_news])
           "stock_analysis" "news_sentiment" Sample.fresh ∅
           1700000000000%Z "ACME").
  - reflexivity.
  - reflexivity.
  - repeat constructor; discriminate.
Defined.

(** X3. When no host answers, or the keyspace does not exist,
    [save_to_cassandra] raises at [connect] and leaves the world as it
    was, whatever the frame and whether or not it would collect: no
    keyspace and no table is created, nothing is written, nothing is
    printed. *)
Theorem save_without_keyspace_raises
    (df : outcome (list ScoredRow)) (keyspace table : string) (w : World) :
  reachable (cluster w) = false \/ keyspaces (cluster w) !! keyspace = None ->
  exists e, save_to_cassandra df keyspace table w = (Raised e, w).
Proof. apply save_unconnected. Qed.

Lemma save_without_keyspace_raises_witness :
  exists e,
    save_to_cassandra (Returned (sentiment_df Sample.lexicon Sample.three_news))
      "stock_analysis" "news_sentiment" Sample.unreachable
    = (Raised e, Sample.unreachable).
Proof.
  apply (save_without_keyspace_raises
           (Returned (sentiment_df Sample.lexicon Sample.three_news))
           "stock_analysis" "news_sentiment" Sample.unreachable).
  left. reflexivity.
Defined.

Section FrameFacts.

Variables keyspace table : string.
Variables keyspace' table' : string.
Hypothesis elsewhere : (keyspace', table') <> (keyspace, table).

Lemma execute_elsewhere
    (stmt : gmap string (gmap (Z * string) StoredRow)
            -> outcome (gmap string (gmap (Z * string) StoredRow)))
    (w : World) :
  (forall tables tables', stmt tables = Returned tables' ->
     forall t, t <> table -> tables' !! t = tables !! t) ->
  table_rows keyspace' table' (snd (Session.execute keyspace stmt w))
  = table_rows keyspace' table' w.
Proof.
  intros Hstmt. unfold Session.execute.
  destruct (keyspaces (cluster w) !! keyspace) as [tables|] eqn:Hks; [|reflexivity].
  destruct (stmt tables) as [tables'|e] eqn:Hs; [|reflexivity].
  unfold table_rows. cbn [snd cluster keyspaces].
  destruct (decide (keyspace' = keyspace)) as [->|Hne].
  - rewrite lookup_insert_eq, Hks. simpl.
    apply (Hstmt tables tables' Hs). congruence.
  - now rewrite lookup_insert_ne by congruence.
Qed.

Lemma create_elsewhere (w : World) :
  table_rows keyspace' table'
    (snd (Session.execute keyspace (Session.create_table_if_not_exists table) w))
  = table_rows keyspace' table' w.
Proof.
  apply execute_elsewhere. intros tables tables' H t Ht.
  unfold Session.create_table_if_not_exists in H.
  destruct (tables !! table); injection H as <-; [reflexivity|].
  now rewrite lookup_insert_ne by congruence.
Qed.

Lemma insert_elsewhere (r : ScoredRow) (w : World) :
  table_rows keyspace' table'
    (snd (Session.execute keyspace (Session.insert_into table r) w))
  = table_rows keyspace' table' w.
Proof.
  apply execute_elsewhere. intros tables tables' H t Ht.
  unfold Session.insert_into in H.
  destruct (tables !! table); [|discriminate].
  destruct (fetch_timestamp (article r)), (company (article r));
    try discriminate.
  injection H as <-. now rewrite lookup_insert_ne by congruence.
Qed.

Lemma for_each_elsewhere (rows : list ScoredRow) :
  forall w : World,
    table_rows keyspace' table'
      (snd (for_each rows
              (fun row => Session.execute keyspace (Session.insert_into table row)) w))
    = table_rows keyspace' table' w.
Proof.
  induction rows as [|r rows IH]; intros w.
  - reflexivity.
  - cbn [for_each]. unfold bind.
    pose proof (insert_elsewhere r w) as Hr.
    destruct (Session.execute keyspace (Session.insert_into table r) w)
      as [[u|e] w1]; cbn [snd] in Hr.
    + now rewrite IH.
    + exact Hr.
Qed.

Lemma save_elsewhere (df : outcome (list ScoredRow)) (w : World) :
  table_rows keyspace' table' (snd (save_to_cassandra df keyspace table w))
  = table_rows keyspace' table' w.
Proof.
  unfold save_to_cassandra, bind, Session.connect, collect.
  destruct (reachable (cluster w)); [|reflexivity].
  destruct (keyspaces (cluster w) !! keyspace) eqn:Hks; [|reflexivity].
  pose proof (create_elsewhere w) as Hc.
  destruct (Session.execute keyspace (Session.create_table_if_not_exists table) w)
    as [[u|e] w1]; cbn [snd] in Hc; [|exact Hc].
  destruct df as [rows|e]; [|exact Hc].
  pose proof (for_each_elsewhere rows w1) as Hf.
  destruct (for_each rows _ w1) as [[u'|e] w2]; cbn [snd] in Hf.
  - rewrite <- Hc, <- Hf. reflexivity.
  - rewrite <- Hc, <- Hf. reflexivity.
Qed.

End FrameFacts.

(** X4. Whatever the frame (its rows, or the failure of its [collect])
    and however the call ends, [save_to_cassandra] touches its own table
    only: every other table of the keyspace and every table of another
    keyspace holds after the call what it held before. *)
Theorem save_touches_one_table
    (df : outcome (list ScoredRow)) (keyspace table keyspace' table' : string)
    (w : World) :
  (keyspace', table') <> (keyspace, table) ->
  table_rows keyspace' table' (snd (save_to_cassandra df keyspace table w))
  = table_rows keyspace' table' w.
Proof. intros H. now apply save_elsewhere. Qed.

Lemma save_touches_one_table_witness :
  table_rows "stock_analysis" "prices"
    (snd (save_to_cassandra
            (Returned (sentiment_df Sample.lexicon Sample.batch_of_three))
            "stock_analysis" "news_sentiment" Sample.fresh))
  = table_rows "stock_analysis" "prices" Sample.fresh.
Proof.
  apply (save_touches_one_table
           (Returned (sentiment_df Sample.lexicon Sample.batch_of_three))
           "stock_analysis" "news_sentiment" "stock_analysis" "prices" Sample.fresh).
  discriminate.
Defined.

(** ** [process_batch]: the paths through a batch *)

(** X5. An empty batch is skipped: [process_batch] prints the "No data
    received" line with the batch identifier and does nothing else; no
    report is shown and the cluster is not contacted, so it need not even
    be reachable. *)
Theorem empty_batch_is_skipped
    (analyze_sentiment : string -> PolarityScores)
    (job_failure : Z -> action -> option exn) (epoch_id : Z) (w : World) :
  job_failure epoch_id IsEmpty = None ->
  process_batch analyze_sentiment job_failure [] epoch_id w
  = (Returned tt,
     {| cluster := cluster w;
        stdout := stdout w ++
          [Print ("Batch " +:+ str epoch_id +:+ ": No data received")] |}).
Proof.
  intros H.
  unfold process_batch, try_except, process_batch_body, bind, run_job.
  now rewrite H.
Qed.

Lemma empty_batch_is_skipped_witness :
  process_batch Sample.lexicon Sample.no_failure [] 4 Sample.unreachable
  = (Returned tt,
     {| cluster := cluster Sample.unreachable;
        stdout := [Print "Batch 4: No data received"] |}).
Proof.
  apply (empty_batch_is_skipped Sample.lexicon Sample.no_failure 4
           Sample.unreachable).
  reflexivity.
Defined.

Section BatchFacts.

Variable analyze_sentiment : string -> PolarityScores.
Variable job_failure : Z -> action -> option exn.

Lemma jobs_before_collect (epoch_id : Z) :
  (exists b e, b <> Collect /\ job_failure epoch_id b = Some e)
  \/ (forall b, b <> Collect -> job_failure epoch_id b = None).
Proof.
  destruct (job_failure epoch_id IsEmpty) as [e|] eqn:H1;
    [left; exists IsEmpty, e; now split|].
  destruct (job_failure epoch_id ShowCompanySentiment) as [e|] eqn:H2;
    [left; exists ShowCompanySentiment, e; now split|].
  destruct (job_failure epoch_id ShowMostPositive) as [e|] eqn:H3;
    [left; exists ShowMostPositive, e; now split|].
  destruct (job_failure epoch_id ShowMostNegative) as [e|] eqn:H4;
    [left; exists ShowMostNegative, e; now split|].
  right. intros [] Hb; congruence.
Qed.

(** A job that fails before the save ends the batch with the cluster
    untouched; so does an empty batch. *)
Lemma batch_ends_before_save (df : list Article) (epoch_id : Z) (w : World)
    (b : action) (e : exn) :
  b <> Collect -> job_failure epoch_id b = Some e ->
  cluster (snd (process_batch analyze_sentiment job_failure df epoch_id w))
  = cluster w.
Proof.
  intros Hb H.
  unfold process_batch, try_except, process_batch_body, show_companies,
    show_articles, bind, run_job.
  destruct (job_failure epoch_id IsEmpty) eqn:H1; [reflexivity|].
  destruct df as [|x df]; [reflexivity|].
  cbn [ret raise print emit].
  destruct (job_failure epoch_id ShowCompanySentiment) eqn:H2; [reflexivity|].
  cbn [ret raise print emit].
  destruct (job_failure epoch_id ShowMostPositive) eqn:H3; [reflexivity|].
  cbn [ret raise print emit].
  destruct (job_failure epoch_id ShowMostNegative) eqn:H4; [reflexivity|].
  destruct b; congruence.
Qed.

Lemma empty_batch_cluster (epoch_id : Z) (w : World) :
  cluster (snd (process_batch analyze_sentiment job_failure [] epoch_id w))
  = cluster w.
Proof.
  unfold process_batch, try_except, process_batch_body, bind, run_job.
  destruct (job_failure epoch_id IsEmpty); reflexivity.
Qed.

(** When the emptiness test and the three reports go through, the batch
    reaches the save with the cluster as it was, and ends with the cluster
    as the save leaves it. *)
Lemma batch_reaches_save (df : list Article) (epoch_id : Z) (w : World) :
  df <> [] ->
  (forall b, b <> Collect -> job_failure epoch_id b = None) ->
  exists w1,
    cluster w1 = cluster w
    /\ cluster (snd (process_batch analyze_sentiment job_failure df epoch_id w))
       = cluster
           (snd (save_to_cassandra
                   (job_result job_failure epoch_id Collect
                      (sentiment_df analyze_sentiment df))
                   "stock_analysis" "news_sentiment" w1)).
Proof.
  intros Hdf Hjobs.
  unfold process_batch, try_except, process_batch_body, show_companies,
    show_articles, bind, run_job.
  rewrite !Hjobs by discriminate. destruct df as [|x df]; [contradiction|].
  cbn [ret print emit].
  match goal with
  | |- context [save_to_cassandra ?d ?ks ?tbl ?w1] =>
      exists w1; split; [reflexivity|];
      destruct (save_to_cassandra d ks tbl w1) as [[u|e] w2]; reflexivity
  end.
Qed.

End BatchFacts.

(** X6. When the job of a Spark action of a batch fails, no row of the
    batch reaches the store. A failing emptiness test or report ends the
    batch before [save_to_cassandra] is called, and the cluster is left as
    it was. The [collect] of the save runs after the connection and the
    [CREATE TABLE]: when it is the job that fails, every table still holds
    what it held, except that [news_sentiment], if it was missing, has
    been created, empty. *)
Theorem failed_job_persists_nothing
    (analyze_sentiment : string -> PolarityScores)
    (job_failure : Z -> action -> option exn)
    (df : list Article) (epoch_id : Z) (w : World) (a : action) (e : exn) :
  job_failure epoch_id a = Some e ->
  (a <> Collect ->
   cluster (snd (process_batch analyze_sentiment job_failure df epoch_id w))
   = cluster w)
  /\ (forall keyspace table,
        table_rows keyspace table
          (snd (process_batch analyze_sentiment job_failure df epoch_id w))
        = table_rows keyspace table w
        \/ ((keyspace, table) = ("stock_analysis", "news_sentiment")
            /\ table_rows keyspace table w = None
            /\ table_rows keyspace table
                 (snd (process_batch analyze_sentiment job_failure df epoch_id w))
               = Some ∅))
  /\ (a = Collect ->
      (forall b, b <> Collect -> job_failure epoch_id b = None) ->
      df <> [] ->
      reachable (cluster w) = true ->
      forall tables,
        keyspaces (cluster w) !! "stock_analysis" = Some tables ->
        table_rows "stock_analysis" "news_sentiment"
          (snd (process_batch analyze_sentiment job_failure df epoch_id w))
        = Some (default ∅ (tables !! "news_sentiment"))).
Proof.
  intros H. split; [|split].
  - intros Ha. now apply batch_ends_before_save with a e.
  - intros keyspace table. unfold table_rows.
    destruct (jobs_before_collect job_failure epoch_id) as [(b & e' & Hb & He')|Hjobs].
    { left. now rewrite (batch_ends_before_save _ _ df epoch_id w b e'). }
    destruct df as [|x df].
    { left. now rewrite empty_batch_cluster. }
    destruct (batch_reaches_save analyze_sentiment job_failure (x :: df) epoch_id w)
      as (w1 & Hw1 & ->); [discriminate | assumption |].
    assert (Ha : a = Collect).
    { destruct a; try reflexivity; rewrite Hjobs in H by discriminate;
        discriminate. }
    subst a. unfold job_result. rewrite H.
    destruct (reachable (cluster w)) eqn:Hup; cycle 1.
    { left. destruct (save_unconnected "stock_analysis" "news_sentiment"
                        (Raised e) w1) as [e' ->].
      - left. now rewrite Hw1.
      - cbn [snd]. now rewrite Hw1. }
    destruct (keyspaces (cluster w) !! "stock_analysis") as [tables|] eqn:Hks;
      cycle 1.
    { left. destruct (save_unconnected "stock_analysis" "news_sentiment"
                        (Raised e) w1) as [e' ->].
      - right. now rewrite Hw1.
      - cbn [snd]. now rewrite Hw1. }
    rewrite (save_uncollected "stock_analysis" "news_sentiment" e w1 tables)
      by (rewrite Hw1; assumption).
    cbn [snd cluster keyspaces]. rewrite Hw1.
    destruct (decide (keyspace = "stock_analysis")) as [->|Hk].
    + rewrite lookup_insert_eq, Hks. cbn.
      destruct (decide (table = "news_sentiment")) as [->|Ht].
      * rewrite lookup_insert_eq.
        destruct (tables !! "news_sentiment") as [rows|] eqn:Htbl.
        -- left. reflexivity.
        -- right. repeat split.
      * left. now rewrite lookup_insert_ne by congruence.
    + left. now rewrite lookup_insert_ne by congruence.
  - intros -> Hjobs Hdf Hup tables Hks. unfold table_rows.
    destruct (batch_reaches_save analyze_sentiment job_failure df epoch_id w)
      as (w1 & Hw1 & ->); [assumption | assumption |].
    unfold job_result. rewrite H.
    rewrite (save_uncollected "stock_analysis" "news_sentiment" e w1 tables)
      by (rewrite Hw1; assumption).
    cbn [snd cluster keyspaces].
    rewrite lookup_insert_eq. cbn. apply lookup_insert_eq.
Qed.

Lemma failed_job_persists_nothing_witness :
  table_rows "stock_analysis" "news_sentiment" Sample.fresh = None
  /\ table_rows "stock_analysis" "news_sentiment"
       (snd (process_batch Sample.lexicon Sample.collect_fails
               Sample.three_news 0 Sample.fresh))
     = Some ∅.
Proof.
  split; [reflexivity|].
  destruct (failed_job_persists_nothing Sample.lexicon Sample.collect_fails
              Sample.three_news 0 Sample.fresh Collect "Job aborted" eq_refl)
    as (_ & _ & H).
  assert (Hjobs : forall b, b <> Collect -> Sample.collect_fails 0 b = None)
    by (intros [] Hb; [reflexivity .. | contradiction]).
  assert (Hdf : Sample.three_news <> []) by discriminate.
  exact (H eq_refl Hjobs Hdf eq_refl ∅ eq_refl).
Defined.



(** ** Labels and aggregates *)

Section LabelFacts.

Lemma label_of_range (o : option double) :
  label_of o = "positive" \/ label_of o = "negative" \/ label_of o = "neutral".
Proof.
  unfold label_of.
  destruct (Column.holds (Column.ge o 0.05)); [now left|].
  destruct (Column.holds (Column.le o (-0.05))); [right; now left|].
  right. now right.
Qed.

Lemma count_label_cons (lbl : string) (r : ScoredRow) (g : list ScoredRow) :
  count_label lbl (r :: g)
  = ((if String.eqb (sentiment_label r) lbl then 1 else 0) + count_label lbl g)%nat.
Proof.
  unfold count_label. simpl. now destruct (String.eqb (sentiment_label r) lbl).
Qed.

Lemma count_labels (g : list ScoredRow) :
  Forall (fun r => sentiment_label r = label_of (overall_sentiment r)) g ->
  (count_label "positive" g + count_label "negative" g + count_label "neutral" g
   = length g)%nat.
Proof.
  induction 1 as [|r g Hr _ IH].
  - reflexivity.
  - rewrite !count_label_cons. cbn [length]. rewrite <- IH, Hr.
    destruct (label_of_range (overall_sentiment r)) as [-> | [-> | ->]];
      simpl; lia.
Qed.

Lemma group_labelled (analyze_sentiment : string -> PolarityScores)
    (df : list Article) (c : option string) :
  Forall (fun r => sentiment_label r = label_of (overall_sentiment r))
         (Aggregate.group c (sentiment_df analyze_sentiment df)).
Proof.
  apply List.Forall_forall. intros r Hr.
  apply in_group_iff in Hr as [Hr _].
  apply in_sentiment_df in Hr as (a & _ & ->). reflexivity.
Qed.

End LabelFacts.

(** X8. Every row of [sentiment_df] carries exactly one of the three labels,
    so among the articles of a company (the rows of the batch with that
    [company], and no others) the numbers of positive, negative and
    neutral ones add up to the [article_count] of the company's row. *)
Theorem labels_partition_each_group
    (analyze_sentiment : string -> PolarityScores) (df : list Article) :
  (forall r, In r (sentiment_df analyze_sentiment df) ->
     sentiment_label r = "positive" \/ sentiment_label r = "negative"
     \/ sentiment_label r = "neutral")
  /\ (forall a,
        In a (Aggregate.company_sentiment (sentiment_df analyze_sentiment df)) ->
        Z.of_nat
          (count_label "positive"
             (rows_of_company (agg_company a) (sentiment_df analyze_sentiment df))
           + count_label "negative"
               (rows_of_company (agg_company a) (sentiment_df analyze_sentiment df))
           + count_label "neutral"
               (rows_of_company (agg_company a) (sentiment_df analyze_sentiment df)))
        = article_count a).
Proof.
  split.
  - intros r Hr. apply in_sentiment_df in Hr as (a & _ & ->).
    apply label_of_range.
  - intros a Ha. apply in_company_sentiment_rows in Ha as [_ Ha].
    rewrite count_labels
      by (rewrite <- group_rows_of_company; apply group_labelled).
    now rewrite Ha at 2.
Qed.

Section GroupSizes.

Lemma one_group_counts (ks : list (option string)) (k : option string) :
  List.NoDup ks -> In k ks ->
  fold_right Z.add 0%Z
    (List.map (fun c => if bool_decide (k = c) then 1%Z else 0%Z) ks) = 1%Z.
Proof.
  induction 1 as [|c ks Hc Hnd IH]; intros Hin; [destruct Hin|].
  simpl. case_bool_decide as Hk.
  - subst c.
    assert (H0 : fold_right Z.add 0%Z
                   (List.map (fun c => if bool_decide (k = c) then 1%Z else 0%Z) ks)
                 = 0%Z).
    { clear IH Hnd Hin. induction ks as [|c ks IH]; [reflexivity|].
      simpl. rewrite bool_decide_eq_false_2.
      - rewrite IH; [reflexivity|]. intros H. apply Hc. now right.
      - intros ->. apply Hc. now left. }
    lia.
  - destruct Hin as [->|Hin]; [contradiction|]. now rewrite IH.
Qed.

Lemma group_sizes (ks : list (option string)) (l : list ScoredRow) :
  List.NoDup ks ->
  (forall r, In r l -> In (Aggregate.company_of r) ks) ->
  fold_right Z.add 0%Z
    (List.map (fun c => Z.of_nat (length (Aggregate.group c l))) ks)
  = Z.of_nat (length l).
Proof.
  intros Hnd. induction l as [|r l IH]; intros Hin.
  - clear. induction ks as [|c ks IHks]; [reflexivity|].
    simpl in *. now rewrite IHks.
  - assert (Hsplit : forall ks',
      fold_right Z.add 0%Z
        (List.map (fun c => Z.of_nat (length (Aggregate.group c (r :: l)))) ks')
      = (fold_right Z.add 0%Z
           (List.map (fun c => if bool_decide (Aggregate.company_of r = c)
                               then 1%Z else 0%Z) ks')
         + fold_right Z.add 0%Z
             (List.map (fun c => Z.of_nat (length (Aggregate.group c l))) ks'))%Z).
    { induction ks' as [|c ks' IH']; [reflexivity|].
      cbn [List.map fold_right]. rewrite IH'.
      unfold Aggregate.group at 1, Aggregate.in_group at 1. cbn [List.filter].
      fold (Aggregate.in_group c). fold (Aggregate.group c l).
      case_bool_decide; cbn [length]; lia. }
    rewrite Hsplit, one_group_counts, IH.
    + cbn [length]. lia.
    + intros r' Hr'. apply Hin. now right.
    + assumption.
    + apply Hin. now left.
Qed.

End GroupSizes.

(** X9. The groups partition the batch: the [article_count]s of the rows of
    [company_sentiment] add up to the number of rows of [sentiment_df];
    an article with a null [company] is counted too, in the group of the
    null key. *)
Theorem article_counts_add_up (sdf : list ScoredRow) :
  fold_right Z.add 0%Z
    (List.map article_count (Aggregate.company_sentiment sdf))
  = Z.of_nat (length sdf).
Proof.
  unfold Aggregate.company_sentiment. rewrite List.map_map. cbn [article_count Aggregate.agg].
  apply group_sizes.
  - apply NoDup_ListNoDup, NoDup_remove_dups.
  - intros r Hr. apply list_elem_of_In. rewrite elem_of_remove_dups.
    apply list_elem_of_In. now apply in_map.
Qed.

Section NullAverages.

(** A positive count is not zero as a double. *)
Lemma of_long_nonzero (n : Z) :
  (1 <= n < 2 ^ 63)%Z -> PrimFloat.eqb (Column.of_long n) 0 = false.
Proof.
  intros Hn. rewrite FloatAxioms.eqb_spec, DoubleSum.of_long_spec by lia.
  destruct n as [|p|p]; try lia. cbn [binary_normalize].
  pose proof (Binary64.binary_round_nonzero false p 0 ltac:(lia)) as H.
  change (Prim2SF 0) with (S754_zero false).
  destruct (binary_round prec emax false p 0) as [s|s| |s m e];
    try contradiction; simpl in H; subst s; reflexivity.
Qed.

Lemma div_by_count (x : double) (n : Z) :
  (1 <= n < 2 ^ 63)%Z ->
  Column.div (Some x) (Some (Column.of_long n)) = Some (x / Column.of_long n)%float.
Proof. intros Hn. unfold Column.div. now rewrite of_long_nonzero. Qed.

Lemma mean_null (xs : list double) :
  (Z.of_nat (length xs) < 2 ^ 63)%Z -> (mean xs = None <-> xs = []).
Proof.
  intros Hn. unfold mean. destruct xs as [|x xs].
  - split; reflexivity.
  - rewrite div_by_count by (cbn [length] in *; lia). split; discriminate.
Qed.

Lemma present_nil (col : list (option double)) :
  present col = [] <-> (forall o, In o col -> o = None).
Proof.
  induction col as [|[x|] col IH]; simpl.
  - split; [intros _ o [] | reflexivity].
  - split; [discriminate|]. intros H. discriminate (H (Some x)). now left.
  - rewrite IH. split.
    + intros H o [<-|Ho]; [reflexivity | now apply H].
    + intros H o Ho. apply H. now right.
Qed.

Lemma unscored_scored_length (g : list ScoredRow) :
  (length (unscored g) + length (scored_rows g) = length g)%nat.
Proof.
  unfold unscored, scored_rows.
  induction g as [|r g IH]; [reflexivity|].
  cbn [List.filter]. destruct (overall_sentiment r); cbn [length]; lia.
Qed.

Lemma length_present (col : list (option double)) :
  (length (present col) <= length col)%nat.
Proof. induction col as [|[x|] col IH]; simpl; lia. Qed.

End NullAverages.

(** X10. The row of a company is never short of its ratios, but its
    average can be null: [positive_ratio] and [negative_ratio] are always
    numbers, while [avg_sentiment] is null exactly when every article of
    the batch with that company has a null [overall_sentiment] (each
    lacks its title or its description). Such articles still count:
    [article_count] is the number of the company's articles without an
    [overall_sentiment] plus the number of those with one. *)
Theorem avg_sentiment_null_iff (sdf : list ScoredRow) (a : CompanyAggregate) :
  In a (Aggregate.company_sentiment sdf) ->
  (article_count a < 2 ^ 63)%Z ->
  (avg_sentiment a = None
   <-> forall r, In r sdf -> company (article r) = agg_company a ->
                 overall_sentiment r = None)
  /\ positive_ratio a <> None
  /\ negative_ratio a <> None
  /\ article_count a
     = Z.of_nat (length (unscored (rows_of_company (agg_company a) sdf))
                 + length (scored_rows (rows_of_company (agg_company a) sdf))).
Proof.
  intros Ha Hn. apply in_company_sentiment_rows in Ha as [Hne Ha].
  generalize dependent (agg_company a). intros c Hne ->.
  cbn [article_count avg_sentiment positive_ratio negative_ratio Aggregate.agg] in *.
  assert (Hin : forall r, In r (rows_of_company c sdf)
                          <-> In r sdf /\ company (article r) = c).
  { intros r. rewrite <- group_rows_of_company. apply in_group_iff. }
  set (g := rows_of_company c sdf) in *.
  assert (Hlen : (1 <= Z.of_nat (length g) < 2 ^ 63)%Z).
  { destruct g; [contradiction | cbn [length] in *; lia]. }
  split; [|split; [|split]].
  - rewrite DoubleSum.avg_mean, mean_null, present_nil.
    + split.
      * intros H r Hr Hc. apply H. apply in_map. apply Hin. now split.
      * intros H o Ho. apply in_map_iff in Ho as (r & <- & Hr).
        apply Hin in Hr as [Hr Hc]. now apply H.
    + pose proof (length_present (List.map overall_sentiment g)) as Hp.
      rewrite length_map in Hp. lia.
  - rewrite DoubleSum.avg_indicator, div_by_count by assumption. discriminate.
  - rewrite DoubleSum.avg_indicator, div_by_count by assumption. discriminate.
  - f_equal. symmetry. apply unscored_scored_length.
Qed.

Lemma avg_sentiment_null_iff_witness :
  (avg_sentiment
     {| agg_company := Some "ACME"; avg_sentiment := None; article_count := 1;
        positive_ratio := Some 0%float; negative_ratio := Some 0%float |} = None
   <-> forall r,
         In r (sentiment_df Sample.lexicon [Sample.stock_soars]) ->
         company (article r) = Some "ACME" ->
         overall_sentiment r = None)
  /\ Some 0%float <> (None : option double)
  /\ 1%Z
     = Z.of_nat
         (length (unscored
                    (rows_of_company (Some "ACME")
                       (sentiment_df Sample.lexicon [Sample.stock_soars])))
          + length (scored_rows
                      (rows_of_company (Some "ACME")
                         (sentiment_df Sample.lexicon [Sample.stock_soars])))).
Proof.
  destruct (avg_sentiment_null_iff
              (sentiment_df Sample.lexicon [Sample.stock_soars])
              {| agg_company := Some "ACME"; avg_sentiment := None;
                 article_count := 1;
                 positive_ratio := Some 0%float; negative_ratio := Some 0%float |})
    as (H1 & H2 & _ & H4).
  - vm_compute. left. reflexivity.
  - reflexivity.
  - split; [exact H1 | split; [exact H2 | exact H4]].
Defined.

(** ** Nulls in the two reports *)

Section NullsInReports.

Lemma in_firstn {A} (n : nat) (l : list A) (x : A) :
  In x (firstn n l) -> In x l.
Proof.
  intros H. rewrite <- (firstn_skipn n l). apply in_or_app. now left.
Qed.

Lemma insert_asc_null (r : ScoredRow) (l : list ScoredRow) :
  overall_sentiment r = None -> Ranking.insert_by Ranking.asc r l = r :: l.
Proof. intros H. destruct l; simpl; [reflexivity|]. now rewrite H. Qed.

Lemma insert_asc_scored (r : ScoredRow) (nulls l : list ScoredRow) :
  overall_sentiment r <> None ->
  Forall (fun r' => overall_sentiment r' = None) nulls ->
  Ranking.insert_by Ranking.asc r (nulls ++ l)
  = nulls ++ Ranking.insert_by Ranking.asc r l.
Proof.
  intros Hr. induction 1 as [|n nulls Hn _ IH]; [reflexivity|].
  simpl. rewrite Hn, IH. destruct (overall_sentiment r); [reflexivity|contradiction].
Qed.

Lemma unscored_null (sdf : list ScoredRow) :
  Forall (fun r => overall_sentiment r = None) (unscored sdf).
Proof.
  apply List.Forall_forall. intros r Hr. apply filter_In in Hr as [_ Hr].
  now destruct (overall_sentiment r).
Qed.

Lemma scored_rows_number (sdf : list ScoredRow) :
  Forall (fun r => overall_sentiment r <> None) (scored_rows sdf).
Proof.
  apply List.Forall_forall. intros r Hr. apply filter_In in Hr as [_ Hr].
  now destruct (overall_sentiment r).
Qed.

(** Ascending: the unscored rows, then the scored rows in order. *)
Lemma order_by_asc_nulls_first (sdf : list ScoredRow) :
  Ranking.order_by Ranking.asc sdf
  = unscored sdf ++ Ranking.order_by Ranking.asc (scored_rows sdf).
Proof.
  induction sdf as [|r sdf IH]; [reflexivity|].
  cbn [Ranking.order_by fold_right]. fold (Ranking.order_by Ranking.asc sdf).
  rewrite IH. unfold unscored, scored_rows. cbn [List.filter].
  fold (unscored sdf). fold (scored_rows sdf).
  destruct (overall_sentiment r) eqn:Hr.
  - rewrite insert_asc_scored; [reflexivity | congruence | apply unscored_null].
  - now rewrite insert_asc_null.
Qed.

Lemma insert_desc_null (r : ScoredRow) (l nulls : list ScoredRow) :
  overall_sentiment r = None ->
  Forall (fun r' => overall_sentiment r' = None) nulls ->
  Forall (fun r' => overall_sentiment r' <> None) l ->
  Ranking.insert_by Ranking.desc r (l ++ nulls) = l ++ r :: nulls.
Proof.
  intros Hr Hnulls. induction 1 as [|x l Hx _ IH].
  - destruct Hnulls as [|n nulls Hn _]; simpl; [reflexivity|].
    now rewrite Hr, Hn.
  - simpl. rewrite Hr, IH. now destruct (overall_sentiment x).
Qed.

Lemma insert_desc_scored (r : ScoredRow) (l nulls : list ScoredRow) :
  overall_sentiment r <> None ->
  Forall (fun r' => overall_sentiment r' = None) nulls ->
  Ranking.insert_by Ranking.desc r (l ++ nulls)
  = Ranking.insert_by Ranking.desc r l ++ nulls.
Proof.
  intros Hr Hnulls. induction l as [|x l IH].
  - destruct Hnulls as [|n nulls Hn _]; simpl; [reflexivity|].
    rewrite Hn. destruct (overall_sentiment r); [reflexivity|contradiction].
  - simpl. destruct (Ranking.desc _ _); [reflexivity|]. now rewrite IH.
Qed.

Lemma insert_by_scored (before : option double -> option double -> bool)
    (r : ScoredRow) (l : list ScoredRow) :
  overall_sentiment r <> None ->
  Forall (fun r' => overall_sentiment r' <> None) l ->
  Forall (fun r' => overall_sentiment r' <> None) (Ranking.insert_by before r l).
Proof.
  intros Hr Hl. eapply Permutation_Forall.
  - symmetry. apply insert_by_perm.
  - now constructor.
Qed.

Lemma order_by_scored (before : option double -> option double -> bool)
    (l : list ScoredRow) :
  Forall (fun r' => overall_sentiment r' <> None) l ->
  Forall (fun r' => overall_sentiment r' <> None) (Ranking.order_by before l).
Proof.
  intros Hl. eapply Permutation_Forall; [|exact Hl].
  symmetry. apply order_by_perm.
Qed.

(** Descending: the scored rows in order, then the unscored rows. *)
Lemma order_by_desc_nulls_last (sdf : list ScoredRow) :
  Ranking.order_by Ranking.desc sdf
  = Ranking.order_by Ranking.desc (scored_rows sdf) ++ unscored sdf.
Proof.
  induction sdf as [|r sdf IH]; [reflexivity|].
  cbn [Ranking.order_by fold_right]. fold (Ranking.order_by Ranking.desc sdf).
  rewrite IH. unfold unscored, scored_rows. cbn [List.filter].
  fold (unscored sdf). fold (scored_rows sdf).
  destruct (overall_sentiment r) eqn:Hr.
  - rewrite insert_desc_scored; [reflexivity | congruence | apply unscored_null].
  - rewrite insert_desc_null; [reflexivity | assumption | apply unscored_null |].
    apply order_by_scored, scored_rows_number.
Qed.

End NullsInReports.

(** X11. Rows with a null [overall_sentiment] sort first in ascending order
    and last in descending order. So when at least three rows of the batch
    are unscored, the "most negative" report shows unscored rows only; and
    the "most positive" report shows an unscored row only when the batch
    has fewer than three scored rows. *)
Theorem unscored_rows_in_reports (sdf : list ScoredRow) :
  (3 <= length (unscored sdf) ->
   forall x, In x (Ranking.most_negative sdf) -> snd x = None)
  /\ (3 <= length (scored_rows sdf) ->
      forall x, In x (Ranking.most_positive sdf) -> snd x <> None).
Proof.
  split; intros Hlen x Hx.
  - unfold Ranking.most_negative, Ranking.top in Hx.
    rewrite order_by_asc_nulls_first, List.map_app, firstn_app in Hx.
    rewrite length_map in Hx.
    replace (3 - length (unscored sdf)) with 0 in Hx by lia.
    cbn [firstn] in Hx. rewrite app_nil_r in Hx.
    apply in_firstn in Hx. apply in_map_iff in Hx as (r & <- & Hr).
    pose proof (unscored_null sdf) as Hn.
    rewrite List.Forall_forall in Hn. now apply Hn.
  - unfold Ranking.most_positive, Ranking.top in Hx.
    rewrite order_by_desc_nulls_last, List.map_app, firstn_app in Hx.
    rewrite length_map in Hx.
    replace (3 - length (Ranking.order_by Ranking.desc (scored_rows sdf)))
      with 0 in Hx.
    + cbn [firstn] in Hx. rewrite app_nil_r in Hx.
      apply in_firstn in Hx. apply in_map_iff in Hx as (r & <- & Hr).
      pose proof (order_by_scored Ranking.desc _ (scored_rows_number sdf)) as Hn.
      rewrite List.Forall_forall in Hn. now apply Hn.
    + rewrite (Permutation_length (order_by_perm Ranking.desc (scored_rows sdf))).
      lia.
Qed.

Lemma unscored_rows_in_reports_witness :
  Forall (fun x => snd x = None)
    (Ranking.most_negative
       (sentiment_df Sample.lexicon
          [Sample.stock_soars; Sample.good_news; Sample.stock_soars;
           Sample.bad_news; Sample.stock_soars])).
Proof.
  apply List.Forall_forall.
  apply (unscored_rows_in_reports
           (sentiment_df Sample.lexicon
              [Sample.stock_soars; Sample.good_news; Sample.stock_soars;
               Sample.bad_news; Sample.stock_soars])).
  vm_compute. lia.
Defined.

(** ** The reports show the extremes *)

Section Extremes.

Lemma SFleb_trans (s1 s2 s3 : spec_float) :
  SFleb s1 s2 = true -> SFleb s2 s3 = true -> SFleb s1 s3 = true.
Proof.
  unfold SFleb, SFcompare.
  destruct s1 as [[]|[]| |[] m1 e1], s2 as [[]|[]| |[] m2 e2],
           s3 as [[]|[]| |[] m3 e3];
    try discriminate; try reflexivity;
    change (Pos.compare_cont Eq) with Pos.compare;
    repeat match goal with
           | |- context [(?a ?= ?b)%Z] => destruct (Z.compare_spec a b)
           end;
    try discriminate; try reflexivity; try lia; subst;
    repeat match goal with
           | |- context [(?a ?= ?b)%positive] => destruct (Pos.compare_spec a b)
           end;
    simpl; try discriminate; try reflexivity; try lia.
Qed.

Lemma double_le_trans (x y z : double) :
  Column.double_le x y = true -> Column.double_le y z = true ->
  Column.double_le x z = true.
Proof.
  unfold Column.double_le.
  destruct (PrimFloat.is_nan z); [reflexivity|].
  destruct (PrimFloat.is_nan y); [discriminate|].
  destruct (PrimFloat.is_nan x); [discriminate|].
  rewrite !FloatAxioms.leb_spec. apply SFleb_trans.
Qed.

Lemma double_ge_le (x y : double) : Column.double_ge x y = Column.double_le y x.
Proof. reflexivity. Qed.

Lemma asc_trans (a b c : option double) :
  Ranking.asc a b = true -> Ranking.asc b c = true -> Ranking.asc a c = true.
Proof.
  destruct a, b, c; simpl; try discriminate; try reflexivity.
  apply double_le_trans.
Qed.

Lemma desc_trans (a b c : option double) :
  Ranking.desc a b = true -> Ranking.desc b c = true -> Ranking.desc a c = true.
Proof.
  destruct a as [x|], b as [y|], c as [z|]; simpl;
    try discriminate; try reflexivity.
  rewrite !double_ge_le. intros H1 H2. now apply double_le_trans with y.
Qed.

Variable before : option double -> option double -> bool.
Hypothesis before_total : forall a b, before a b = true \/ before b a = true.
Hypothesis before_trans :
  forall a b c, before a b = true -> before b c = true -> before a c = true.

Lemma order_by_strongly_sorted (sdf : list ScoredRow) :
  StronglySorted (Ranking.precedes before) (Ranking.order_by before sdf).
Proof.
  apply Sorted_StronglySorted.
  - intros x y z. unfold Ranking.precedes. apply before_trans.
  - now apply order_by_sorted.
Qed.

Lemma strongly_sorted_split (l1 l2 : list ScoredRow) :
  StronglySorted (Ranking.precedes before) (l1 ++ l2) ->
  forall r r', In r l1 -> In r' l2 -> Ranking.precedes before r r'.
Proof.
  induction l1 as [|x l1 IH]; intros Hs r r' Hr Hr'; [destruct Hr|].
  cbn [app] in Hs. apply StronglySorted_inv in Hs as [Hs Hx].
  destruct Hr as [<-|Hr].
  - rewrite List.Forall_forall in Hx. apply Hx. apply in_or_app. now right.
  - now apply IH.
Qed.

Lemma top_is_extremal (k : nat) (sdf : list ScoredRow) (r r' : ScoredRow) :
  In r (firstn k (Ranking.order_by before sdf)) ->
  In r' (skipn k (Ranking.order_by before sdf)) ->
  before (overall_sentiment r) (overall_sentiment r') = true.
Proof.
  apply strongly_sorted_split. rewrite firstn_skipn.
  apply order_by_strongly_sorted.
Qed.

End Extremes.

(** X12. Each report shows the three rows that rank first: the batch is a
    permutation of the reported rows followed by the rows left out, and no
    row left out has a greater [overall_sentiment] than a row of the "most
    positive" report, nor a smaller one than a row of the "most negative"
    report (a null counting as the lowest of all in both). *)
Theorem reports_show_the_extremes (sdf : list ScoredRow) :
  (Ranking.most_positive sdf
   = List.map Ranking.select (firstn 3 (Ranking.order_by Ranking.desc sdf))
   /\ Permutation (firstn 3 (Ranking.order_by Ranking.desc sdf)
                   ++ skipn 3 (Ranking.order_by Ranking.desc sdf)) sdf
   /\ forall r r',
        In r (firstn 3 (Ranking.order_by Ranking.desc sdf)) ->
        In r' (skipn 3 (Ranking.order_by Ranking.desc sdf)) ->
        Ranking.desc (overall_sentiment r) (overall_sentiment r') = true)
  /\ (Ranking.most_negative sdf
      = List.map Ranking.select (firstn 3 (Ranking.order_by Ranking.asc sdf))
      /\ Permutation (firstn 3 (Ranking.order_by Ranking.asc sdf)
                      ++ skipn 3 (Ranking.order_by Ranking.asc sdf)) sdf
      /\ forall r r',
           In r (firstn 3 (Ranking.order_by Ranking.asc sdf)) ->
           In r' (skipn 3 (Ranking.order_by Ranking.asc sdf)) ->
           Ranking.asc (overall_sentiment r) (overall_sentiment r') = true).
Proof.
  split; (split; [|split]).
  - unfold Ranking.most_positive, Ranking.top. apply firstn_map.
  - rewrite firstn_skipn. apply order_by_perm.
  - apply top_is_extremal; [apply desc_total | apply desc_trans].
  - unfold Ranking.most_negative, Ranking.top. apply firstn_map.
  - rewrite firstn_skipn. apply order_by_perm.
  - apply top_is_extremal; [apply asc_total | apply asc_trans].
Qed.

(** * [normalize_sentiment] *)

Module Normalize.

#[local] Open Scope Z_scope.

Lemma SFcompare_nan_r (s : spec_float) : SFcompare s S754_nan = None.
Proof. now destruct s. Qed.

Lemma ltb_irrefl (x : double) : (x <? x)%float = false.
Proof.
  rewrite FloatAxioms.ltb_spec. unfold SFltb.
  destruct (Prim2SF x) eqn:E; try reflexivity;
    rewrite DoubleOrder.SFcompare_refl by discriminate; reflexivity.
Qed.

Lemma ltb_nan_l (a b : double) : PrimFloat.is_nan a = true -> (a <? b)%float = false.
Proof.
  intros H. apply DoubleOrder.is_nan_spec in H.
  rewrite FloatAxioms.ltb_spec, H. reflexivity.
Qed.

Lemma ltb_nan_r (a b : double) : PrimFloat.is_nan b = true -> (a <? b)%float = false.
Proof.
  intros H. apply DoubleOrder.is_nan_spec in H.
  rewrite FloatAxioms.ltb_spec, H. unfold SFltb. now rewrite SFcompare_nan_r.
Qed.

Lemma minimum_same (x : double) : Numpy.minimum x x = x.
Proof. unfold Numpy.minimum. now destruct (PrimFloat.is_nan x), (x <? x)%float. Qed.

Lemma maximum_same (x : double) : Numpy.maximum x x = x.
Proof. unfold Numpy.maximum. now destruct (PrimFloat.is_nan x), (x <? x)%float. Qed.

Lemma fold_minimum_repeat (x : double) (n : nat) :
  fold_left Numpy.minimum (repeat x n) x = x.
Proof. induction n as [|n IH]; simpl; [reflexivity|]. now rewrite minimum_same. Qed.

Lemma fold_maximum_repeat (x : double) (n : nat) :
  fold_left Numpy.maximum (repeat x n) x = x.
Proof. induction n as [|n IH]; simpl; [reflexivity|]. now rewrite maximum_same. Qed.

(** A NaN in the array is its minimum and its maximum. *)
Lemma minimum_nan (a b : double) :
  PrimFloat.is_nan a = true \/ PrimFloat.is_nan b = true ->
  PrimFloat.is_nan (Numpy.minimum a b) = true.
Proof.
  unfold Numpy.minimum. destruct (PrimFloat.is_nan a) eqn:Ha; [auto|].
  intros [H|H]; [discriminate|]. now rewrite ltb_nan_r.
Qed.

Lemma maximum_nan (a b : double) :
  PrimFloat.is_nan a = true \/ PrimFloat.is_nan b = true ->
  PrimFloat.is_nan (Numpy.maximum a b) = true.
Proof.
  unfold Numpy.maximum. destruct (PrimFloat.is_nan a) eqn:Ha; [auto|].
  intros [H|H]; [discriminate|]. now rewrite ltb_nan_l.
Qed.

Lemma fold_nan (step : double -> double -> double) (xs : list double) :
  (forall a b, PrimFloat.is_nan a = true \/ PrimFloat.is_nan b = true ->
               PrimFloat.is_nan (step a b) = true) ->
  forall acc,
    PrimFloat.is_nan acc = true \/ (exists x, In x xs /\ PrimFloat.is_nan x = true) ->
    PrimFloat.is_nan (fold_left step xs acc) = true.
Proof.
  intros Hstep. induction xs as [|y xs IH]; intros acc H; simpl.
  - destruct H as [H|(x & [] & _)]. exact H.
  - apply IH. destruct H as [H|(x & [<-|Hx] & Hn)].
    + left. apply Hstep. now left.
    + left. apply Hstep. now right.
    + right. now exists x.
Qed.

(** The minimum and the maximum are elements of the array. *)
Lemma fold_step_in (step : double -> double -> double) (xs : list double) :
  (forall a b, step a b = a \/ step a b = b) ->
  forall acc, In (fold_left step xs acc) (acc :: xs).
Proof.
  intros Hstep. induction xs as [|y xs IH]; intros acc; simpl.
  - now left.
  - destruct (IH (step acc y)) as [H|H].
    + destruct (Hstep acc y) as [E|E]; [left | right; left];
        (transitivity (step acc y); [now symmetry | exact H]).
    + right. now right.
Qed.

Lemma minimum_choice (a b : double) :
  Numpy.minimum a b = a \/ Numpy.minimum a b = b.
Proof.
  unfold Numpy.minimum.
  destruct (PrimFloat.is_nan a), (a <? b)%float; auto.
Qed.

(** Subtraction of two numbers in order. *)
Lemma valid_canonical (s : bool) (m : positive) (e : Z) :
  SpecFloat.valid_binary prec emax (S754_finite s m e) = true ->
  e = Z.max (Zpos (digits2_pos m) + e - 53) (-1074).
Proof.
  simpl. unfold bounded, canonical_mantissa. rewrite Binary64.fexp64_eq.
  intros H. apply andb_prop in H as [H _]. apply Z.eqb_eq in H. lia.
Qed.

Lemma aligned_differ (mx my : positive) (ex ey : Z) (s : bool) :
  SpecFloat.valid_binary prec emax (S754_finite s mx ex) = true ->
  SpecFloat.valid_binary prec emax (S754_finite s my ey) = true ->
  (mx, ex) <> (my, ey) ->
  fst (shl_align mx ex (Z.min ex ey)) <> fst (shl_align my ey (Z.min ex ey)).
Proof.
  intros Vx Vy Hne E.
  apply valid_canonical in Vx, Vy.
  rewrite !Binary64.shl_align_left in E by lia. cbn [fst] in E.
  pose proof (f_equal (fun p => Zpos (digits2_pos p)) E) as Hd.
  cbn beta in Hd. rewrite !Binary64.digits_shl in Hd.
  assert (ex = ey) by lia. subst ey.
  rewrite Z.min_id, Z.sub_diag in E.
  change (Z.to_nat 0) with 0%nat in E. unfold shl in E. simpl in E. congruence.
Qed.

Lemma SFcompare_same (s : bool) (m : positive) (e : Z) :
  SFcompare (S754_finite s m e) (S754_finite s m e) = Some Eq.
Proof. apply DoubleOrder.SFcompare_refl. discriminate. Qed.

Lemma SFsub_lt (x y : spec_float) :
  SpecFloat.valid_binary prec emax x = true ->
  SpecFloat.valid_binary prec emax y = true ->
  SFcompare y x = Some Lt ->
  match SFsub prec emax x y with
  | S754_finite _ _ _ | S754_infinity _ => True
  | _ => False
  end.
Proof.
  intros Vx Vy Hlt.
  destruct x as [sx|sx| |sx mx ex], y as [sy|sy| |sy my ey];
    try discriminate Hlt;
    try (destruct sx, sy; simpl in *; try discriminate Hlt; exact I);
    try (destruct sx; simpl in *; try discriminate Hlt; exact I);
    try (simpl; exact I).
  assert (Hex : -1074 <= Z.min ex ey).
  { apply Binary64.valid_exponent in Vx, Vy. lia. }
  assert (Hd : cond_Zopp sx (Zpos (fst (shl_align mx ex (Z.min ex ey))))
               - cond_Zopp sy (Zpos (fst (shl_align my ey (Z.min ex ey)))) <> 0).
  { destruct sx, sy; cbn [cond_Zopp]; try lia.
    - pose proof (aligned_differ mx my ex ey true Vx Vy) as H.
      intros E. apply H; [|lia].
      intros [= -> ->]. rewrite SFcompare_same in Hlt. discriminate.
    - pose proof (aligned_differ mx my ex ey false Vx Vy) as H.
      intros E. apply H; [|lia].
      intros [= -> ->]. rewrite SFcompare_same in Hlt. discriminate. }
  cbn [SFsub]. cbv zeta.
  destruct (cond_Zopp sx _ - cond_Zopp sy _) as [|p|p] eqn:E; [contradiction| |];
    cbn [binary_normalize].
  - pose proof (Binary64.binary_round_nonzero false p _ Hex) as H.
    now destruct (binary_round prec emax false p (Z.min ex ey)).
  - pose proof (Binary64.binary_round_nonzero true p _ Hex) as H.
    now destruct (binary_round prec emax true p (Z.min ex ey)).
Qed.

Lemma SFsub_self (x : spec_float) :
  match x with S754_zero _ | S754_finite _ _ _ => True | _ => False end ->
  SFsub prec emax x x = S754_zero false.
Proof.
  destruct x as [[]| | |s m e]; try contradiction; intros _; try reflexivity.
  cbn [SFsub]. cbv zeta. now rewrite Z.sub_diag.
Qed.

(** The least element, when it is a number above minus infinity and the
    array is not constant, goes to zero. *)
Lemma least_to_zero (m M : double) :
  (neg_infinity <? m)%float = true -> (m <? M)%float = true ->
  ((m - m) / (M - m) =? 0)%float = true.
Proof.
  rewrite !FloatAxioms.ltb_spec, FloatAxioms.eqb_spec, FloatAxioms.div_spec,
    !FloatAxioms.sub_spec.
  change (Prim2SF neg_infinity) with (S754_infinity true).
  change (Prim2SF 0%float) with (S754_zero false).
  unfold SFltb. intros Hinf Hlt.
  destruct (SFcompare (Prim2SF m) (Prim2SF M)) as [[]|] eqn:Hc; try discriminate.
  pose proof (SFsub_lt (Prim2SF M) (Prim2SF m) (Prim2SF_valid M) (Prim2SF_valid m) Hc)
    as Hd.
  unfold SF64sub, SF64div.
  rewrite (SFsub_self (Prim2SF m)).
  - destruct (SFsub prec emax (Prim2SF M) (Prim2SF m)) as [s|s| |s p e];
      try contradiction; destruct s; reflexivity.
  - destruct (Prim2SF m) as [s|[]| |s p e]; try exact I; try discriminate.
    destruct (Prim2SF M) as [?|[]| |]; discriminate.
Qed.

End Normalize.

(** X13. [normalize_sentiment] divides only when the maximum exceeds the
    minimum: an array whose elements are all the same number comes back
    unchanged, with no division by zero; an empty array has no minimum and
    the call raises. *)
Theorem normalize_constant_unchanged (x : double) (n : nat) :
  normalize_sentiment (x :: repeat x n) = Returned (x :: repeat x n)
  /\ exists e, normalize_sentiment [] = Raised e.
Proof.
  split; [|eexists; reflexivity].
  unfold normalize_sentiment, Numpy.amin, Numpy.amax.
  rewrite Normalize.fold_minimum_repeat, Normalize.fold_maximum_repeat.
  now rewrite Normalize.ltb_irrefl.
Qed.

(** X14. A NaN anywhere in the array switches the normalization off: the
    minimum is then NaN, the test [max_sent > min_sent] fails, and the
    array comes back unchanged. *)
Theorem normalize_nan_unchanged (xs : list double) (x : double) :
  In x xs -> PrimFloat.is_nan x = true ->
  normalize_sentiment xs = Returned xs.
Proof.
  intros Hin Hx. unfold normalize_sentiment, Numpy.amin, Numpy.amax.
  destruct xs as [|y xs]; [destruct Hin|].
  rewrite Normalize.ltb_nan_l; [reflexivity|].
  apply Normalize.fold_nan; [apply Normalize.minimum_nan|].
  destruct Hin as [<-|Hin]; [now left | right; now exists x].
Qed.

Lemma normalize_nan_unchanged_witness :
  normalize_sentiment [0.5; nan; 0.1]%float = Returned [0.5; nan; 0.1]%float.
Proof.
  apply (normalize_nan_unchanged [0.5; nan; 0.1]%float nan).
  - right. left. reflexivity.
  - reflexivity.
Defined.

(** X15. When the minimum is a number below the maximum, every element is
    mapped to [(x - min) / (max - min)], the array keeps its length, the
    minimum is one of its elements, and each element equal to the minimum
    is mapped to zero. *)
Theorem normalize_least_is_zero (xs : list double) (m M : double) :
  Numpy.amin xs = Returned m ->
  Numpy.amax xs = Returned M ->
  (neg_infinity <? m)%float = true ->
  (m <? M)%float = true ->
  exists ys,
    normalize_sentiment xs = Returned ys
    /\ length ys = length xs
    /\ In m xs
    /\ forall i, nth_error xs i = Some m ->
         exists y, nth_error ys i = Some y /\ (y =? 0)%float = true.
Proof.
  intros Hmin Hmax Hinf Hlt.
  exists (List.map (fun x => ((x - m) / (M - m))%float) xs).
  split; [|split; [|split]].
  - unfold normalize_sentiment. now rewrite Hmin, Hmax, Hlt.
  - apply length_map.
  - destruct xs as [|x xs]; [discriminate|].
    injection Hmin as <-.
    apply Normalize.fold_step_in, Normalize.minimum_choice.
  - intros i Hi. eexists. split.
    + rewrite nth_error_map, Hi. reflexivity.
    + now apply Normalize.least_to_zero.
Qed.

Lemma normalize_least_is_zero_witness :
  exists ys,
    normalize_sentiment [0.5; 0.1; 0.9]%float = Returned ys
    /\ length ys = 3%nat
    /\ In 0.1%float [0.5; 0.1; 0.9]%float
    /\ forall i, nth_error [0.5; 0.1; 0.9]%float i = Some 0.1%float ->
         exists y, nth_error ys i = Some y /\ (y =? 0)%float = true.
Proof.
  apply (normalize_least_is_zero [0.5; 0.1; 0.9]%float 0.1%float 0.9%float);
    reflexivity.
Defined.

(** * [setup_hadoop_binaries] *)

Module HadoopFacts.

Import Hadoop.

Section Setup.

Variable download : string -> fetch.
Variable path_str : list string -> string.

Ltac paths :=
  unfold winutils_path, hadoop_dll_path, bin_dir, hadoop_dir in *;
  cbn [app] in *.

Lemma mkdir_existing (h : Host) :
  fs h !! hadoop_dir = Some Directory ->
  fs h !! bin_dir = Some Directory ->
  mkdir_parents [] bin_dir h = (Returned tt, h).
Proof. paths. intros H1 H2. cbn [mkdir_parents app]. now rewrite H1, H2. Qed.

Lemma mkdir_fresh (h : Host) :
  fs h !! hadoop_dir = None ->
  fs h !! bin_dir = None ->
  mkdir_parents [] bin_dir h
  = (Returned tt, write bin_dir Directory (write hadoop_dir Directory h)).
Proof.
  paths. intros H1 H2. cbn [mkdir_parents app]. rewrite H1.
  unfold write at 1. cbn [fs].
  rewrite lookup_insert_ne, H2 by discriminate. reflexivity.
Qed.

Ltac lookups :=
  repeat first
    [ rewrite lookup_insert_eq
    | rewrite lookup_insert_ne by discriminate ].

Ltac step_setup :=
  unfold setup_hadoop_binaries, hbind, path_exists, urlretrieve, hprint, setenv,
    getenv, hret, write in *;
  paths; cbn [fs environ console fst snd] in *.

(** Both binaries are there: nothing is downloaded. *)
Lemma setup_present (h : Host) (e1 e2 : entry) (old : string) :
  fs h !! hadoop_dir = Some Directory ->
  fs h !! bin_dir = Some Directory ->
  fs h !! winutils_path = Some e1 ->
  fs h !! hadoop_dll_path = Some e2 ->
  environ h !! "PATH" = Some old ->
  setup_hadoop_binaries download path_str h
  = (Returned tt,
     {| fs := fs h;
        environ := <["PATH" := path_str bin_dir +:+ ";" +:+ old]>
                     (<["HADOOP_HOME" := path_str hadoop_dir]> (environ h));
        console := console h ++ ["Hadoop binaries setup completed"] |}).
Proof.
  intros H1 H2 H3 H4 H5.
  unfold setup_hadoop_binaries, hbind at 1.
  rewrite (mkdir_existing h H1 H2).
  step_setup. rewrite H3.
  rewrite bool_decide_eq_true_2 by (eexists; reflexivity). cbn iota beta.
  rewrite H4.
  rewrite bool_decide_eq_true_2 by (eexists; reflexivity). cbn iota beta.
  lookups. now rewrite H5.
Qed.

(** Neither the directories nor the binaries are there, and both
    downloads succeed. *)
Lemma setup_fresh (h : Host) :
  fs h !! hadoop_dir = None ->
  fs h !! bin_dir = None ->
  fs h !! winutils_path = None ->
  fs h !! hadoop_dll_path = None ->
  download winutils_url = Fetched ->
  download hadoop_dll_url = Fetched ->
  setup_hadoop_binaries download path_str h
  = (run _ <- setenv "HADOOP_HOME" (path_str hadoop_dir);
     run path <- getenv "PATH";
     run _ <- setenv "PATH" (path_str bin_dir +:+ ";" +:+ path);
     hprint "Hadoop binaries setup completed")
      {| fs := <[hadoop_dll_path := File]>
                 (<[winutils_path := File]>
                    (<[bin_dir := Directory]>
                       (<[hadoop_dir := Directory]> (fs h))));
         environ := environ h;
         console := console h ++ ["Downloading winutils.exe...";
                                  "Downloading hadoop.dll..."] |}.
Proof.
  intros H1 H2 H3 H4 D1 D2.
  unfold setup_hadoop_binaries, hbind at 1.
  rewrite (mkdir_fresh h H1 H2).
  unfold hbind at 1, path_exists at 1, write. cbn [fs].
  paths. lookups. rewrite H3.
  rewrite bool_decide_eq_false_2 by (intros [? ?]; discriminate).
  unfold hbind at 1 2, hprint at 1, urlretrieve at 1. rewrite D1.
  unfold hbind at 1, path_exists at 1, write. cbn [fs environ console].
  lookups. rewrite H4.
  rewrite bool_decide_eq_false_2 by (intros [? ?]; discriminate).
  unfold hbind at 1 2, hprint at 1, urlretrieve at 1. rewrite D2.
  unfold write. cbn [fs environ console].
  now rewrite <- app_assoc.
Qed.

(** The directories and [winutils.exe] are there, [hadoop.dll] is not,
    and its download succeeds. *)
Lemma setup_missing_dll (h : Host) (e1 : entry) (old : string) :
  fs h !! hadoop_dir = Some Directory ->
  fs h !! bin_dir = Some Directory ->
  fs h !! winutils_path = Some e1 ->
  fs h !! hadoop_dll_path = None ->
  environ h !! "PATH" = Some old ->
  download hadoop_dll_url = Fetched ->
  setup_hadoop_binaries download path_str h
  = (Returned tt,
     {| fs := <[hadoop_dll_path := File]> (fs h);
        environ := <["PATH" := path_str bin_dir +:+ ";" +:+ old]>
                     (<["HADOOP_HOME" := path_str hadoop_dir]> (environ h));
        console := console h ++ ["Downloading hadoop.dll...";
                                 "Hadoop binaries setup completed"] |}).
Proof.
  intros H1 H2 H3 H4 H5 D2.
  unfold setup_hadoop_binaries, hbind at 1.
  rewrite (mkdir_existing h H1 H2).
  step_setup. rewrite H3.
  rewrite bool_decide_eq_true_2 by (eexists; reflexivity). cbn iota beta.
  rewrite H4.
  rewrite bool_decide_eq_false_2 by (intros [? ?]; discriminate). cbn iota beta.
  rewrite D2. cbn [fs environ console].
  lookups. rewrite H5. cbn [fs environ console]. now rewrite <- app_assoc.
Qed.

(** The transfer of [winutils.exe] breaks off on a fresh host. *)
Lemma setup_truncated (h : Host) (e : exn) :
  fs h !! hadoop_dir = None ->
  fs h !! bin_dir = None ->
  fs h !! winutils_path = None ->
  download winutils_url = Truncated e ->
  setup_hadoop_binaries download path_str h
  = (Raised e,
     {| fs := <[winutils_path := File]>
                (<[bin_dir := Directory]>
                   (<[hadoop_dir := Directory]> (fs h)));
        environ := environ h;
        console := console h ++ ["Downloading winutils.exe..."] |}).
Proof.
  intros H1 H2 H3 D1.
  unfold setup_hadoop_binaries, hbind at 1.
  rewrite (mkdir_fresh h H1 H2).
  unfold hbind at 1, path_exists at 1, write. cbn [fs].
  paths. lookups. rewrite H3.
  rewrite bool_decide_eq_false_2 by (intros [? ?]; discriminate).
  unfold hbind at 1 2, hprint at 1, urlretrieve at 1. now rewrite D1.
Qed.

End Setup.

End HadoopFacts.

(** X16. [setup_hadoop_binaries] downloads only what is missing: when the
    directory and both binaries are already there, the call needs no
    network, prints the closing line only, sets [HADOOP_HOME] and puts the
    [bin] directory in front of [PATH]. *)
Theorem setup_downloads_only_missing
    (download : string -> Hadoop.fetch) (path_str : list string -> string)
    (h : Hadoop.Host) (e1 e2 : Hadoop.entry) (old : string) :
  Hadoop.fs h !! Hadoop.hadoop_dir = Some Hadoop.Directory ->
  Hadoop.fs h !! Hadoop.bin_dir = Some Hadoop.Directory ->
  Hadoop.fs h !! Hadoop.winutils_path = Some e1 ->
  Hadoop.fs h !! Hadoop.hadoop_dll_path = Some e2 ->
  Hadoop.environ h !! "PATH" = Some old ->
  Hadoop.setup_hadoop_binaries download path_str h
  = (Returned tt,
     {| Hadoop.fs := Hadoop.fs h;
        Hadoop.environ :=
          <["PATH" := path_str Hadoop.bin_dir +:+ ";" +:+ old]>
            (<["HADOOP_HOME" := path_str Hadoop.hadoop_dir]> (Hadoop.environ h));
        Hadoop.console :=
          Hadoop.console h ++ ["Hadoop binaries setup completed"] |}).
Proof. apply HadoopFacts.setup_present. Qed.

Lemma setup_downloads_only_missing_witness :
  fst (Hadoop.setup_hadoop_binaries Hadoop.offline Hadoop.windows_str
         Hadoop.ready_host) = Returned tt.
Proof.
  rewrite (setup_downloads_only_missing Hadoop.offline Hadoop.windows_str
             Hadoop.ready_host Hadoop.File Hadoop.File "C:\Windows");
    reflexivity.
Defined.

(** X17. On a host where neither the directory nor the binaries exist and
    [PATH] is set, with both downloads succeeding, a first call creates the
    directories and fetches both files; a second call, whatever the network
    does then, fetches nothing, and puts the [bin] directory in front of
    [PATH] a second time. *)
Theorem setup_twice
    (download download' : string -> Hadoop.fetch)
    (path_str : list string -> string) (h : Hadoop.Host) (old : string) :
  Hadoop.fs h !! Hadoop.hadoop_dir = None ->
  Hadoop.fs h !! Hadoop.bin_dir = None ->
  Hadoop.fs h !! Hadoop.winutils_path = None ->
  Hadoop.fs h !! Hadoop.hadoop_dll_path = None ->
  Hadoop.environ h !! "PATH" = Some old ->
  download Hadoop.winutils_url = Hadoop.Fetched ->
  download Hadoop.hadoop_dll_url = Hadoop.Fetched ->
  Hadoop.hbind (Hadoop.setup_hadoop_binaries download path_str)
    (fun _ => Hadoop.setup_hadoop_binaries download' path_str) h
  = (Returned tt,
     {| Hadoop.fs :=
          <[Hadoop.hadoop_dll_path := Hadoop.File]>
            (<[Hadoop.winutils_path := Hadoop.File]>
               (<[Hadoop.bin_dir := Hadoop.Directory]>
                  (<[Hadoop.hadoop_dir := Hadoop.Directory]> (Hadoop.fs h))));
        Hadoop.environ :=
          <["PATH" := path_str Hadoop.bin_dir +:+ ";" +:+
                      (path_str Hadoop.bin_dir +:+ ";" +:+ old)]>
            (<["HADOOP_HOME" := path_str Hadoop.hadoop_dir]> (Hadoop.environ h));
        Hadoop.console :=
          Hadoop.console h ++
          ["Downloading winutils.exe..."; "Downloading hadoop.dll...";
           "Hadoop binaries setup completed";
           "Hadoop binaries setup completed"] |}).
Proof.
  intros H1 H2 H3 H4 H5 D1 D2.
  unfold Hadoop.hbind at 1.
  rewrite (HadoopFacts.setup_fresh download path_str h H1 H2 H3 H4 D1 D2).
  unfold Hadoop.hbind, Hadoop.setenv, Hadoop.getenv, Hadoop.hprint.
  cbn [Hadoop.fs Hadoop.environ Hadoop.console].
  rewrite lookup_insert_ne, H5 by discriminate.
  erewrite HadoopFacts.setup_present;
    cbn [Hadoop.fs Hadoop.environ Hadoop.console]; cycle 1.
  - unfold Hadoop.hadoop_dll_path, Hadoop.winutils_path, Hadoop.bin_dir,
      Hadoop.hadoop_dir. cbn [app].
    rewrite !lookup_insert_ne by discriminate. apply lookup_insert_eq.
  - unfold Hadoop.hadoop_dll_path, Hadoop.winutils_path, Hadoop.bin_dir,
      Hadoop.hadoop_dir. cbn [app].
    rewrite !lookup_insert_ne by discriminate. apply lookup_insert_eq.
  - unfold Hadoop.hadoop_dll_path, Hadoop.winutils_path, Hadoop.bin_dir,
      Hadoop.hadoop_dir. cbn [app].
    rewrite lookup_insert_ne by discriminate. apply lookup_insert_eq.
  - apply lookup_insert_eq.
  - apply lookup_insert_eq.
  - rewrite <- !app_assoc. cbn [app].
    rewrite (insert_insert_ne _ "HADOOP_HOME" "PATH") by discriminate.
    rewrite !insert_insert_eq. reflexivity.
Qed.

Lemma setup_twice_witness :
  fst (Hadoop.hbind
         (Hadoop.setup_hadoop_binaries Hadoop.online Hadoop.windows_str)
         (fun _ => Hadoop.setup_hadoop_binaries Hadoop.offline Hadoop.windows_str)
         Hadoop.fresh_host) = Returned tt.
Proof.
  rewrite (setup_twice Hadoop.online Hadoop.offline Hadoop.windows_str
             Hadoop.fresh_host "C:\Windows");
    reflexivity.
Defined.

(** X18. [PATH] is read last: on a host without [PATH] in its environment
    the call raises a [KeyError], after it has created the directories,
    fetched both binaries and set [HADOOP_HOME]; the closing line is not
    printed. *)
Theorem setup_without_path
    (download : string -> Hadoop.fetch) (path_str : list string -> string)
    (h : Hadoop.Host) :
  Hadoop.fs h !! Hadoop.hadoop_dir = None ->
  Hadoop.fs h !! Hadoop.bin_dir = None ->
  Hadoop.fs h !! Hadoop.winutils_path = None ->
  Hadoop.fs h !! Hadoop.hadoop_dll_path = None ->
  Hadoop.environ h !! "PATH" = None ->
  download Hadoop.winutils_url = Hadoop.Fetched ->
  download Hadoop.hadoop_dll_url = Hadoop.Fetched ->
  Hadoop.setup_hadoop_binaries download path_str h
  = (Raised "'PATH'",
     {| Hadoop.fs :=
          <[Hadoop.hadoop_dll_path := Hadoop.File]>
            (<[Hadoop.winutils_path := Hadoop.File]>
               (<[Hadoop.bin_dir := Hadoop.Directory]>
                  (<[Hadoop.hadoop_dir := Hadoop.Directory]> (Hadoop.fs h))));
        Hadoop.environ :=
          <["HADOOP_HOME" := path_str Hadoop.hadoop_dir]> (Hadoop.environ h);
        Hadoop.console :=
          Hadoop.console h ++
          ["Downloading winutils.exe..."; "Downloading hadoop.dll..."] |}).
Proof.
  intros H1 H2 H3 H4 H5 D1 D2.
  rewrite (HadoopFacts.setup_fresh download path_str h H1 H2 H3 H4 D1 D2).
  unfold Hadoop.hbind, Hadoop.setenv, Hadoop.getenv, Hadoop.hprint.
  cbn [Hadoop.fs Hadoop.environ Hadoop.console].
  now rewrite lookup_insert_ne, H5 by discriminate.
Qed.

Lemma setup_without_path_witness :
  fst (Hadoop.setup_hadoop_binaries Hadoop.online Hadoop.windows_str
         Hadoop.bare_host) = Raised "'PATH'".
Proof.
  rewrite (setup_without_path Hadoop.online Hadoop.windows_str Hadoop.bare_host);
    reflexivity.
Defined.

(** X19. A download that breaks off is not repaired: when the transfer of
    [winutils.exe] fails part-way, the call raises and leaves the partial
    file behind; every later call finds a file at that path and never
    fetches it again, whatever the network does, and completes once
    [hadoop.dll] is fetched. *)
Theorem truncated_download_is_kept
    (download download' : string -> Hadoop.fetch)
    (path_str : list string -> string) (h : Hadoop.Host) (e : exn) (old : string) :
  Hadoop.fs h !! Hadoop.hadoop_dir = None ->
  Hadoop.fs h !! Hadoop.bin_dir = None ->
  Hadoop.fs h !! Hadoop.winutils_path = None ->
  Hadoop.fs h !! Hadoop.hadoop_dll_path = None ->
  Hadoop.environ h !! "PATH" = Some old ->
  download Hadoop.winutils_url = Hadoop.Truncated e ->
  download' Hadoop.hadoop_dll_url = Hadoop.Fetched ->
  fst (Hadoop.setup_hadoop_binaries download path_str h) = Raised e
  /\ Hadoop.setup_hadoop_binaries download' path_str
       (snd (Hadoop.setup_hadoop_binaries download path_str h))
     = (Returned tt,
        {| Hadoop.fs :=
             <[Hadoop.hadoop_dll_path := Hadoop.File]>
               (<[Hadoop.winutils_path := Hadoop.File]>
                  (<[Hadoop.bin_dir := Hadoop.Directory]>
                     (<[Hadoop.hadoop_dir := Hadoop.Directory]> (Hadoop.fs h))));
           Hadoop.environ :=
             <["PATH" := path_str Hadoop.bin_dir +:+ ";" +:+ old]>
               (<["HADOOP_HOME" := path_str Hadoop.hadoop_dir]> (Hadoop.environ h));
           Hadoop.console :=
             Hadoop.console h ++
             ["Downloading winutils.exe..."; "Downloading hadoop.dll...";
              "Hadoop binaries setup completed"] |}).
Proof.
  intros H1 H2 H3 H4 H5 D1 D2.
  rewrite (HadoopFacts.setup_truncated download path_str h e H1 H2 H3 D1).
  split; [reflexivity|]. cbn [snd].
  erewrite HadoopFacts.setup_missing_dll;
    cbn [Hadoop.fs Hadoop.environ Hadoop.console]; cycle 1.
  - unfold Hadoop.winutils_path, Hadoop.bin_dir, Hadoop.hadoop_dir. cbn [app].
    rewrite !lookup_insert_ne by discriminate. apply lookup_insert_eq.
  - unfold Hadoop.winutils_path, Hadoop.bin_dir, Hadoop.hadoop_dir. cbn [app].
    rewrite lookup_insert_ne by discriminate. apply lookup_insert_eq.
  - apply lookup_insert_eq.
  - unfold Hadoop.hadoop_dll_path, Hadoop.winutils_path, Hadoop.bin_dir,
      Hadoop.hadoop_dir in *. cbn [app] in *.
    rewrite !lookup_insert_ne by discriminate. exact H4.
  - exact H5.
  - exact D2.
  - now rewrite <- app_assoc.
Qed.

Lemma truncated_download_is_kept_witness :
  fst (Hadoop.setup_hadoop_binaries Hadoop.flaky Hadoop.windows_str
         Hadoop.fresh_host) = Raised "retrieval incomplete"
  /\ fst (Hadoop.setup_hadoop_binaries Hadoop.flaky Hadoop.windows_str
            (snd (Hadoop.setup_hadoop_binaries Hadoop.flaky Hadoop.windows_str
                    Hadoop.fresh_host))) = Returned tt.
Proof.
  destruct (truncated_download_is_kept Hadoop.flaky Hadoop.flaky
              Hadoop.windows_str Hadoop.fresh_host "retrieval incomplete"
              "C:\Windows") as [H1 H2]; try reflexivity.
  split; [exact H1|]. now rewrite H2.
Defined.
